(** * Melbourne Public Toilet Rating System: rating aggregation and
      dataset consistency.

    Shallow embedding of the Streamlit script
    [deepseek_python_20250609_9b7303.py].  The DataFrame [df] is a list of
    rows, the [float64] columns hold IEEE-754 binary64 values
    ([spec_float] with precision 53 and maximal exponent 1024), the
    [num_ratings] column holds [int64] values (integers with their
    wrap-around written out), and the CSV file is a piece of state that
    the handlers overwrite. *)

From Stdlib Require Import ZArith QArith Qabs Qpower Qround Bool List String.
From Stdlib Require Import Lia Lqa Psatz.
From Stdlib Require Import Floats.SpecFloat.
Import ListNotations.

Local Open Scope Z_scope.

(** ** Machine numbers *)

(** [numpy.int64]: two's complement on 64 bits. *)
Module Int64.

Definition min_signed : Z := - 2 ^ 63.
Definition max_signed : Z := 2 ^ 63 - 1.

Definition in_range (z : Z) : Prop := min_signed <= z <= max_signed.

(** Reduction of a mathematical integer to its 64-bit representative. *)
Definition wrap (z : Z) : Z := (z + 2 ^ 63) mod 2 ^ 64 - 2 ^ 63.

(** [a + b] on [int64] scalars. *)
Definition add (a b : Z) : Z := wrap (a + b).

End Int64.

(** [numpy.float64]: IEEE-754 binary64, round to nearest, ties to even. *)
Module F64.

Definition prec : Z := 53.
Definition emax : Z := 1024.

Definition float : Type := spec_float.

Definition mul : float -> float -> float := SFmul prec emax.
Definition add : float -> float -> float := SFadd prec emax.
Definition div : float -> float -> float := SFdiv prec emax.

(** Conversion of an integer to [float64] (the C cast, correctly
    rounded). *)
Definition of_int (z : Z) : float := binary_normalize prec emax z 0 false.

(** The value of the decimal literal [n/d], correctly rounded, as
    Python reads it ([n] and [d] below [2^53]). *)
Definition decimal (n : Z) (d : positive) : float :=
  div (of_int n) (of_int (Zpos d)).

Definition zero : float := S754_zero false.

(** A well-formed binary64 datum: canonical mantissa, exponent in range. *)
Definition valid (x : float) : bool := valid_binary prec emax x.

Definition is_finite (x : float) : bool :=
  match x with
  | S754_zero _ | S754_finite _ _ _ => true
  | S754_infinity _ | S754_nan => false
  end.

(** Powers of two with an integer exponent, as rationals. *)
Definition pow2 (e : Z) : Q := Qpower 2 e.

(** The rational number a finite float denotes (0 for the others). *)
Definition to_Q (x : float) : Q :=
  match x with
  | S754_finite s m e => inject_Z (cond_Zopp s (Zpos m)) * pow2 e
  | _ => 0%Q
  end.

(** The exponent of the last mantissa bit of a value of magnitude [2^e]. *)
Definition fexp (e : Z) : Z := SpecFloat.fexp prec emax e.

End F64.

(** ** Rounding to nearest, as a relation on rationals *)

Module Rounding.

(** The position of an exact value [t] relative to the integer [m] that
    truncates it, as [binary_round_aux] tracks it: on [m], or strictly
    between [m] and [m + 1], below, at or above the midpoint. *)
Definition inbetween (t : Q) (m : Z) (l : location) : Prop :=
  match l with
  | loc_Exact => (t == inject_Z m)%Q
  | loc_Inexact Lt => (inject_Z m < t /\ t < inject_Z m + (1 # 2))%Q
  | loc_Inexact Eq => (t == inject_Z m + (1 # 2))%Q
  | loc_Inexact Gt => (inject_Z m + (1 # 2) < t /\ t < inject_Z m + 1)%Q
  end.

(** A shift record (mantissa, round bit, sticky bit) that truncates [t]. *)
Definition mrs_ok (t : Q) (mrs : shr_record) : Prop :=
  0 <= shr_m mrs /\ inbetween t (shr_m mrs) (loc_of_shr_record mrs).

(** [RN x v]: [v] is a multiple of the unit in the last place of [x]
    ([2^fexp D], where [2^D] bounds [x]) at distance at most half a unit
    from [x]. *)
Definition RN (x v : Q) : Prop :=
  exists D m : Z,
    (x < F64.pow2 D)%Q /\
    ((F64.pow2 (D - 1) <= x)%Q \/ F64.fexp D = -1074) /\
    0 <= m /\
    (v == inject_Z m * F64.pow2 (F64.fexp D))%Q /\
    (inject_Z m - (1 # 2) <= x * F64.pow2 (- F64.fexp D))%Q /\
    (x * F64.pow2 (- F64.fexp D) <= inject_Z m + (1 # 2))%Q.

(** Values a binary64 datum can hold: an integer below [2^53] times a
    power of two that is not below the least exponent. *)
Definition Rep (b : Q) : Prop :=
  exists M E : Z, 0 <= M < 2 ^ 53 /\ -1074 <= E /\
                  (b == inject_Z M * F64.pow2 E)%Q.

(** A result that is a zero or a finite number of sign [sx]. *)
Definition shape (sx : bool) (r : F64.float) : Prop :=
  r = S754_zero sx \/ exists m e, r = S754_finite sx m e.

(** A well-formed datum that is a zero or a positive finite number. *)
Definition nn (a : F64.float) : Prop :=
  F64.valid a = true /\
  ((exists s, a = S754_zero s) \/ exists m e, a = S754_finite false m e).

(** The unit roundoff of binary64. *)
Definition u : Q := F64.pow2 (-53).

(** [q^n] for a natural exponent. *)
Fixpoint qpow (q : Q) (n : nat) : Q :=
  match n with
  | O => 1%Q
  | S n' => (q * qpow q n')%Q
  end.

End Rounding.

Local Open Scope string_scope.
Local Open Scope list_scope.

(** ** Data model *)

(** One row of the DataFrame, with the seven columns of the script. *)
Record Toilet : Type := mkToilet {
  name         : string;
  address      : string;
  latitude     : F64.float;
  longitude    : F64.float;
  avg_rating   : F64.float;   (* float64 column *)
  num_ratings  : Z;           (* int64 column *)
  last_updated : string       (* "%Y-%m-%d" *)
}.

Definition DataFrame : Type := list Toilet.

Definition set_avg_rating (v : F64.float) (r : Toilet) : Toilet :=
  mkToilet (name r) (address r) (latitude r) (longitude r)
           v (num_ratings r) (last_updated r).

Definition set_num_ratings (v : Z) (r : Toilet) : Toilet :=
  mkToilet (name r) (address r) (latitude r) (longitude r)
           (avg_rating r) v (last_updated r).

Definition set_last_updated (v : string) (r : Toilet) : Toilet :=
  mkToilet (name r) (address r) (latitude r) (longitude r)
           (avg_rating r) (num_ratings r) v.

(** ** The pandas operations the script uses *)

(** [df["name"] == key]: the boolean mask, one entry per row. *)
Definition name_mask (df : DataFrame) (key : string) : list bool :=
  map (fun r => String.eqb (name r) key) df.

(** [df.loc[mask, col].values]: the column entries of the selected rows. *)
Fixpoint loc_values {A : Type} (mask : list bool) (col : Toilet -> A)
         (df : DataFrame) : list A :=
  match mask, df with
  | b :: mask', r :: df' =>
      if b then col r :: loc_values mask' col df' else loc_values mask' col df'
  | _, _ => []
  end.

(** [df.loc[mask, col] = v]: the scalar is written to every selected row. *)
Fixpoint loc_assign (mask : list bool) (set : Toilet -> Toilet)
         (df : DataFrame) : DataFrame :=
  match mask, df with
  | b :: mask', r :: df' =>
      (if b then set r else r) :: loc_assign mask' set df'
  | _, _ => df
  end.

(** [pd.concat([df, new], ignore_index=True)]. *)
Definition concat (df new : DataFrame) : DataFrame := df ++ new.

(** Truth value of a Python string: the empty string is false. *)
Definition truthy (s : string) : bool := negb (String.eqb s "").

(** ** Exceptions, messages and the state of a run *)

Inductive exn : Type :=
| FileNotFoundError
| EmptyDataError
| ParserError
| IndexError
| OtherError (what : string).

Inductive outcome (A : Type) : Type :=
| Ok (a : A)
| Raise (e : exn).

Arguments Ok {A} a.
Arguments Raise {A} e.

(** What the script shows through [st.success] and [st.error]. *)
Inductive message : Type :=
| RatingThanks (new_avg : F64.float) (count : Z)
    (* "Thanks for your rating! The toilet's average is now ... from ... ratings." *)
| ToiletAdded
    (* "Toilet added successfully!" *)
| MissingNameOrAddress.
    (* "Please provide both a name and address" *)

(** The seed records of [load_toilet_data], stamped with the date of the
    call. *)
Definition sample_data (today : string) : DataFrame :=
  [ mkToilet "Flinders Street Station Toilets"
             "Flinders St, Melbourne VIC 3000"
             (F64.decimal (-378183) 10000) (F64.decimal 1449671 10000)
             (F64.decimal 35 10) 12 today;
    mkToilet "Queen Victoria Market Toilets"
             "Queen St, Melbourne VIC 3000"
             (F64.decimal (-378076) 10000) (F64.decimal 1449580 10000)
             (F64.decimal 40 10) 8 today;
    mkToilet "Federation Square Toilets"
             "Swanston St & Flinders St, Melbourne VIC 3000"
             (F64.decimal (-378180) 10000) (F64.decimal 1449674 10000)
             (F64.decimal 42 10) 15 today;
    mkToilet "Melbourne Central Toilets"
             "211 La Trobe St, Melbourne VIC 3000"
             (F64.decimal (-378106) 10000) (F64.decimal 1449628 10000)
             (F64.decimal 38 10) 10 today;
    mkToilet "State Library Toilets"
             "328 Swanston St, Melbourne VIC 3000"
             (F64.decimal (-378097) 10000) (F64.decimal 1449651 10000)
             (F64.decimal 41 10) 7 today ].

(** Half a unit in the last place of binary64 at the magnitude of the
    decimal [q], for [q] of magnitude at least 1: with [2^(D-1) <= |q| <
    2^D] the last mantissa bit has weight [2^(D-53)]. *)
Definition half_ulp (q : Q) : Q :=
  F64.pow2 (F64.fexp (Z.log2 (Qfloor (Qabs q)) + 1) - 1).

(** [reads_as q x]: the datum [x] is a well-formed finite binary64 number
    at distance at most half a unit in the last place from the decimal
    [q], that is, the double that Python reads for the literal [q]. *)
Definition reads_as (q : Q) (x : F64.float) : Prop :=
  F64.valid x = true /\ F64.is_finite x = true /\
  (Qabs (F64.to_Q x - q) <= half_ulp q)%Q.

Section Script.

(** The contents of [melbourne_toilet_ratings.csv] and the two pandas
    functions that write and read it. *)
Variable csv : Type.
Variable to_csv : DataFrame -> csv.
Variable read_csv : csv -> outcome DataFrame.

(** The file on disk: absent, or holding some contents. *)
Definition disk : Type := option csv.

(** [pd.read_csv("melbourne_toilet_ratings.csv")]. *)
Definition read_file (d : disk) : outcome DataFrame :=
  match d with
  | None => Raise FileNotFoundError
  | Some contents => read_csv contents
  end.

(** The body of [load_toilet_data]: [try: return pd.read_csv(...)]
    with a bare [except:] that builds the sample data. *)
Definition load_toilet_data (d : disk) (today : string)
  : outcome DataFrame :=
  match read_file d with
  | Ok df => Ok df
  | Raise _ => Ok (sample_data today)
  end.

(** [@st.cache_data]: the first call runs the body and stores its
    result; later calls hand out a copy of the stored result. *)
Definition cached_load_toilet_data (cache : option DataFrame) (d : disk)
           (today : string) : outcome (DataFrame * option DataFrame) :=
  match cache with
  | Some df => Ok (df, cache)
  | None =>
      match load_toilet_data d today with
      | Ok df => Ok (df, Some df)
      | Raise e => Raise e
      end
  end.

(** What a handler works on: the DataFrame in memory, the file on disk
    and the messages shown so far. *)
Record state : Type := mkState {
  df    : DataFrame;
  file  : disk;
  shown : list message
}.

(** The running-average update of the "Submit Rating" handler. *)
Definition new_average (current_avg : F64.float) (current_count rating : Z)
  : F64.float :=
  F64.div (F64.add (F64.mul current_avg (F64.of_int current_count))
                   (F64.of_int rating))
          (F64.of_int (Int64.add current_count 1)).

(** [if st.button("Submit Rating"): ...] *)
Definition submit_rating (today selected_toilet : string) (rating : Z)
           (s : state) : outcome state :=
  let mask := name_mask (df s) selected_toilet in
  match loc_values mask avg_rating (df s) with
  | [] => Raise IndexError
  | current_avg :: _ =>
    match loc_values mask num_ratings (df s) with
    | [] => Raise IndexError
    | current_count :: _ =>
      let new_avg := new_average current_avg current_count rating in
      let df1 := loc_assign mask (set_avg_rating new_avg) (df s) in
      let df2 := loc_assign mask
                   (set_num_ratings (Int64.add current_count 1)) df1 in
      let df3 := loc_assign mask (set_last_updated today) df2 in
      Ok (mkState df3 (Some (to_csv df3))
            (shown s ++ [RatingThanks new_avg (Int64.add current_count 1)]))
    end
  end.

(** [if submitted: if name and address: ... else: st.error(...)] *)
Definition add_toilet (today new_name new_address : string)
           (lat lon : F64.float) (s : state) : state :=
  if truthy new_name && truthy new_address then
    let new_toilet :=
      [ mkToilet new_name new_address lat lon (F64.of_int 0) 0 today ] in
    let df' := concat (df s) new_toilet in
    mkState df' (Some (to_csv df')) (shown s ++ [ToiletAdded])
  else
    mkState (df s) (file s) (shown s ++ [MissingNameOrAddress]).

(** A sequence of submissions against the same selection, each one
    working on the state the previous one left. *)
Fixpoint submit_ratings (today selected_toilet : string)
         (ratings : list Z) (s : state) : outcome state :=
  match ratings with
  | [] => Ok s
  | rating :: rest =>
      match submit_rating today selected_toilet rating s with
      | Ok s' => submit_ratings today selected_toilet rest s'
      | Raise e => Raise e
      end
  end.

End Script.

Arguments read_file {csv} read_csv d.
Arguments load_toilet_data {csv} read_csv d today.
Arguments cached_load_toilet_data {csv} read_csv cache d today.
Arguments mkState {csv} df file shown.
Arguments df {csv} s.
Arguments file {csv} s.
Arguments shown {csv} s.
Arguments submit_rating {csv} to_csv today selected_toilet rating s.
Arguments submit_ratings {csv} to_csv today selected_toilet ratings s.
Arguments add_toilet {csv} to_csv today new_name new_address lat lon s.

(** ** Notions the statements below use *)

(** The row a submission reads its current values from: the first row
    whose name is the selected one ([.values[0]]). *)
Definition first_named (key : string) (d : DataFrame) : option Toilet :=
  find (fun r => String.eqb (name r) key) d.

(** What a submission makes of one row of the table. *)
Definition rated (today key : string) (new_avg : F64.float) (new_count : Z)
           (r : Toilet) : Toilet :=
  if String.eqb (name r) key then
    mkToilet (name r) (address r) (latitude r) (longitude r)
             new_avg new_count today
  else r.

(** A stored average that is a well-formed finite double between 0 and 5. *)
Definition rating_in_range (a : F64.float) : Prop :=
  F64.valid a = true /\ F64.is_finite a = true /\
  (0 <= F64.to_Q a)%Q /\ (F64.to_Q a <= 5)%Q.

(** The range conditions of the data model, on every row. *)
Definition ratings_ok (d : DataFrame) : Prop :=
  Forall (fun r => rating_in_range (avg_rating r) /\ 0 <= num_ratings r) d.

(** The sum and the arithmetic mean of a list of star values. *)
Definition total (stars : list Z) : Z := fold_right Z.add 0 stars.

Definition mean (stars : list Z) : Q :=
  (inject_Z (total stars) / inject_Z (Z.of_nat (List.length stars)))%Q.

(** What [n >= 1] submissions of total [S] leave in a row that started
    with count 0: an average [a] between 1 and 5 with [n * a] within the
    factors [(1 - u)^(3n)] and [(1 + u)^(3n)] of [S]. *)
Definition running_mean_inv (n : nat) (S : Z) (a : F64.float) : Prop :=
  Rounding.nn a /\
  (1 <= F64.to_Q a)%Q /\ (F64.to_Q a <= 5)%Q /\
  Z.of_nat n <= S <= 5 * Z.of_nat n /\
  (inject_Z S * Rounding.qpow (1 - Rounding.u) (3 * n)
   <= inject_Z (Z.of_nat n) * F64.to_Q a)%Q /\
  (inject_Z (Z.of_nat n) * F64.to_Q a
   <= inject_Z S * Rounding.qpow (1 + Rounding.u) (3 * n))%Q.

(** ** The script as a whole *)

(** [df["name"].unique()]: the names, each once, in the order of their
    first appearance. *)
Fixpoint unique (names : list string) : list string :=
  match names with
  | [] => []
  | n :: rest =>
      n :: filter (fun m => negb (String.eqb m n)) (unique rest)
  end.

(** [st.selectbox("Select a toilet", options)]: the option the user
    picked, by its position; [None] when there is nothing to pick. *)
Definition selectbox (options : list string) (picked : nat)
  : option string :=
  nth_error options picked.

(** What triggers a run of the script: any interaction that presses
    neither button, the "Submit Rating" button with the state of the
    select box and of the slider, or the "Add Toilet" button of the form
    with its four fields. *)
Inductive event : Type :=
| View
| SubmitRating (picked : nat) (rating : Z)
| AddToilet (new_name new_address : string) (lat lon : F64.float).

Section Run.

Variable csv : Type.
Variable to_csv : DataFrame -> csv.
Variable read_csv : csv -> outcome DataFrame.

(** What outlives a run: the cache of [st.cache_data] and the file. *)
Record server : Type := mkServer {
  cache   : option DataFrame;
  on_disk : disk csv
}.

(** One run of the script, top to bottom: [df = load_toilet_data()]
    through the cache, then the handler of the pressed button.  With no
    option in the select box the selection is [None]; no name compares
    equal to it, and [.values[0]] raises [IndexError].  An exception ends
    the run; what was cached or written before it stays. *)
Definition script (today : string) (ev : event) (sv : server)
  : server * outcome (state csv) :=
  match cached_load_toilet_data read_csv (cache sv) (on_disk sv) today with
  | Raise e => (sv, Raise e)
  | Ok (df0, cache') =>
      let s0 := mkState df0 (on_disk sv) [] in
      match ev with
      | View => (mkServer cache' (on_disk sv), Ok s0)
      | SubmitRating picked rating =>
          match selectbox (unique (map name df0)) picked with
          | None => (mkServer cache' (on_disk sv), Raise IndexError)
          | Some selected_toilet =>
              match submit_rating to_csv today selected_toilet rating s0 with
              | Ok s1 => (mkServer cache' (file s1), Ok s1)
              | Raise e => (mkServer cache' (on_disk sv), Raise e)
              end
          end
      | AddToilet new_name new_address lat lon =>
          let s1 := add_toilet to_csv today new_name new_address lat lon s0 in
          (mkServer cache' (file s1), Ok s1)
      end
  end.

(** Successive runs, each with its date and its event. *)
Fixpoint session (runs : list (string * event)) (sv : server) : server :=
  match runs with
  | [] => sv
  | (today, ev) :: rest => session rest (fst (script today ev sv))
  end.

(** The options the select box shows in a run: [df["name"].unique()] of
    the table that [df = load_toilet_data()] gave this run. *)
Definition offered (today : string) (sv : server) : outcome (list string) :=
  match cached_load_toilet_data read_csv (cache sv) (on_disk sv) today with
  | Raise e => Raise e
  | Ok (df0, _) => Ok (unique (map name df0))
  end.

(** A restart of the server: the cache of [st.cache_data] lives in the
    process and is lost, the file stays. *)
Definition restart (sv : server) : server := mkServer None (on_disk sv).

End Run.

Arguments mkServer {csv} cache on_disk.
Arguments cache {csv} s.
Arguments on_disk {csv} s.
Arguments script {csv} to_csv read_csv today ev sv.
Arguments session {csv} to_csv read_csv runs sv.
Arguments offered {csv} read_csv today sv.
Arguments restart {csv} sv.

(** * Correctness of the binary64 operations *)

Import F64 Rounding.

Local Close Scope list_scope.
Local Close Scope string_scope.


(** ** Powers of two *)

Lemma pow2_pos e : (0 < pow2 e)%Q.
Proof. apply Qpower_0_lt. reflexivity. Qed.

Lemma pow2_add a b : (pow2 (a + b) == pow2 a * pow2 b)%Q.
Proof. apply Qpower_plus. intros H; discriminate H. Qed.

Lemma pow2_0 : (pow2 0 == 1)%Q.
Proof. reflexivity. Qed.

Lemma pow2_1 : (pow2 1 == 2)%Q.
Proof. reflexivity. Qed.

Lemma pow2_m1 : (pow2 (-1) == 1 # 2)%Q.
Proof. reflexivity. Qed.

Lemma pow2_succ e : (pow2 (e + 1) == 2 * pow2 e)%Q.
Proof. rewrite pow2_add, pow2_1. ring. Qed.

Lemma pow2_pred e : (pow2 (e - 1) == (1 # 2) * pow2 e)%Q.
Proof.
  replace (e - 1) with (e + -1) by lia.
  rewrite pow2_add, pow2_m1. ring.
Qed.

Lemma pow2_le a b : a <= b -> (pow2 a <= pow2 b)%Q.
Proof. intros H. apply Qpower_le_compat_l; [exact H|]. discriminate. Qed.

Lemma pow2_lt a b : a < b -> (pow2 a < pow2 b)%Q.
Proof. intros H. apply Qpower_lt_compat_l; [exact H|]. reflexivity. Qed.

Lemma pow2_inject k : 0 <= k -> (pow2 k == inject_Z (2 ^ k))%Q.
Proof. intros H. unfold pow2. now rewrite Zpower_Qpower. Qed.

Lemma pow2_opp_mul e : (pow2 (- e) * pow2 e == 1)%Q.
Proof.
  rewrite <- pow2_add. replace (- e + e) with 0 by lia. reflexivity.
Qed.

(** ** Number of binary digits *)

Lemma digits2_bounds p :
  2 ^ (Zpos (digits2_pos p) - 1) <= Zpos p < 2 ^ Zpos (digits2_pos p).
Proof.
  induction p as [p IH|p IH|]; simpl digits2_pos.
  - rewrite Pos2Z.inj_succ.
    replace (Z.succ (Zpos (digits2_pos p)) - 1)
      with (Z.succ (Zpos (digits2_pos p) - 1)) by lia.
    rewrite !Z.pow_succ_r by lia. lia.
  - rewrite Pos2Z.inj_succ.
    replace (Z.succ (Zpos (digits2_pos p)) - 1)
      with (Z.succ (Zpos (digits2_pos p) - 1)) by lia.
    rewrite !Z.pow_succ_r by lia. lia.
  - simpl. lia.
Qed.

Lemma Zdigits2_nonneg m : 0 <= Zdigits2 m.
Proof. destruct m; simpl; lia. Qed.

Lemma Zdigits2_pos m : 0 < m -> 2 ^ (Zdigits2 m - 1) <= m < 2 ^ Zdigits2 m.
Proof.
  destruct m as [|p|p]; try lia. intros _. apply digits2_bounds.
Qed.

Lemma Zdigits2_le m k : 0 <= m < 2 ^ k -> 0 <= k -> Zdigits2 m <= k.
Proof.
  intros [H0 H1] Hk.
  destruct (Z.eq_dec m 0) as [->|N]; [simpl; lia|].
  destruct (Z_lt_le_dec k (Zdigits2 m)) as [L|L]; [|exact L].
  exfalso.
  assert (2 ^ k <= 2 ^ (Zdigits2 m - 1)) by (apply Z.pow_le_mono_r; lia).
  pose proof (Zdigits2_pos m). lia.
Qed.

Lemma Zdigits2_ge m k : 2 ^ (k - 1) <= m -> 1 <= k -> k <= Zdigits2 m.
Proof.
  intros H Hk.
  assert (0 < m) by (pose proof (Z.pow_pos_nonneg 2 (k - 1)); lia).
  destruct (Z_lt_le_dec (Zdigits2 m) k) as [L|L]; [|exact L].
  exfalso.
  assert (2 ^ Zdigits2 m <= 2 ^ (k - 1)) by (apply Z.pow_le_mono_r; lia).
  pose proof (Zdigits2_pos m). lia.
Qed.

Lemma Zdigits2_pow2 k : 0 <= k -> Zdigits2 (2 ^ k) = k + 1.
Proof.
  intros Hk.
  assert (0 < 2 ^ k) by (apply Z.pow_pos_nonneg; lia).
  apply Z.le_antisymm.
  - apply Zdigits2_le; [|lia]. rewrite Z.pow_add_r by lia. lia.
  - apply Zdigits2_ge; [|lia]. replace (k + 1 - 1) with k by lia. lia.
Qed.

(** ** Shifting a mantissa to the right *)

Lemma inbetween_bounds t m l :
  inbetween t m l -> (inject_Z m <= t /\ t < inject_Z m + 1)%Q.
Proof.
  destruct l as [|[ | | ]]; simpl; intros H; lra.
Qed.

Lemma inject_Z_xO p : (inject_Z (Zpos p~0) == 2 * inject_Z (Zpos p))%Q.
Proof.
  change (Zpos p~0) with (2 * Zpos p). now rewrite inject_Z_mult.
Qed.

Lemma inject_Z_xI p : (inject_Z (Zpos p~1) == 2 * inject_Z (Zpos p) + 1)%Q.
Proof.
  change (Zpos p~1) with (2 * Zpos p + 1).
  now rewrite inject_Z_plus, inject_Z_mult.
Qed.

Lemma inbetween_ext t t' m l :
  (t == t')%Q -> inbetween t m l -> inbetween t' m l.
Proof.
  intros E. destruct l as [|[ | | ]]; simpl; rewrite E; auto.
Qed.

(** One shift halves the exact value and keeps the record faithful. *)
Lemma shr_1_ok t mrs :
  mrs_ok t mrs -> mrs_ok (t * (1 # 2)) (shr_1 mrs).
Proof.
  destruct mrs as [m r s]. unfold mrs_ok. simpl shr_m.
  intros [Hm H].
  destruct m as [|p|p]; [| |lia].
  - destruct r, s; simpl in *; (split; [lia|]);
      change (inject_Z 0) with 0%Q in *; lra.
  - destruct p as [p|p|]; destruct r, s; simpl in H |- *;
      (split; [lia|]);
      rewrite ?inject_Z_xO, ?inject_Z_xI in H;
      change (inject_Z 1) with 1%Q in *; change (inject_Z 0) with 0%Q in *;
      lra.
Qed.

Lemma iter_shr_1_ok p : forall t mrs,
  mrs_ok t mrs -> mrs_ok (t * pow2 (- Zpos p)) (iter_pos shr_1 p mrs).
Proof.
  induction p as [p IH|p IH|]; intros t mrs H; simpl iter_pos.
  - apply shr_1_ok in H. apply IH in H. apply IH in H.
    destruct H as [H0 H]. split; [exact H0|].
    revert H. apply inbetween_ext.
    replace (- Zpos p~1) with (-1 + (- Zpos p + - Zpos p)) by lia.
    rewrite !pow2_add, pow2_m1. ring.
  - apply IH in H. apply IH in H.
    destruct H as [H0 H]. split; [exact H0|].
    revert H. apply inbetween_ext.
    replace (- Zpos p~0) with (- Zpos p + - Zpos p) by lia.
    rewrite !pow2_add. ring.
  - apply shr_1_ok in H.
    destruct H as [H0 H]. split; [exact H0|].
    revert H. apply inbetween_ext.
    change (pow2 (- 1)) with (1 # 2)%Q. reflexivity.
Qed.

Lemma shr_ok t mrs e n :
  mrs_ok t mrs ->
  mrs_ok (t * pow2 (- Z.max 0 n)) (fst (shr mrs e n)) /\
  snd (shr mrs e n) = e + Z.max 0 n.
Proof.
  intros H. destruct n as [|p|p]; simpl shr; simpl fst; simpl snd.
  - split; [|lia]. destruct H as [H0 H]. split; [exact H0|].
    revert H. apply inbetween_ext.
    change (pow2 (- Z.max 0 0)) with 1%Q. ring.
  - split; [|lia].
    replace (Z.max 0 (Zpos p)) with (Zpos p) by lia.
    now apply iter_shr_1_ok.
  - split; [|lia]. destruct H as [H0 H]. split; [exact H0|].
    revert H. apply inbetween_ext.
    change (pow2 (- Z.max 0 (Zneg p))) with 1%Q. ring.
Qed.

Lemma loc_of_shr_record_of_loc m l :
  loc_of_shr_record (shr_record_of_loc m l) = l.
Proof. destruct l as [|[ | | ]]; reflexivity. Qed.

Lemma shr_m_shr_record_of_loc m l : shr_m (shr_record_of_loc m l) = m.
Proof. destruct l as [|[ | | ]]; reflexivity. Qed.

(** The rounded mantissa is within one half of the exact value. *)
Lemma round_nearest_even_ok t m l :
  inbetween t m l ->
  let m' := round_nearest_even m l in
  m <= m' <= m + 1 /\
  (inject_Z m' - (1 # 2) <= t /\ t <= inject_Z m' + (1 # 2))%Q.
Proof.
  destruct l as [|[ | | ]]; simpl; intros H.
  - split; [lia|]. lra.
  - destruct (Z.even m).
    + split; [lia|]. lra.
    + split; [lia|]. rewrite inject_Z_plus. change (inject_Z 1) with 1%Q. lra.
  - split; [lia|]. lra.
  - split; [lia|]. rewrite inject_Z_plus. change (inject_Z 1) with 1%Q. lra.
Qed.

(** ** The rounding kernel [binary_round_aux] *)

Lemma fexp_eq e : fexp e = Z.max (e - 53) (-1074).
Proof. reflexivity. Qed.

(** Scaling by a power of two. *)
Lemma scale_lt a b k : (a * pow2 (- k) < b)%Q -> (a < b * pow2 k)%Q.
Proof.
  intros H. pose proof (pow2_pos k) as P.
  assert (E : (a == a * pow2 (- k) * pow2 k)%Q).
  { rewrite <- Qmult_assoc, pow2_opp_mul. ring. }
  rewrite E. apply Qmult_lt_compat_r; assumption.
Qed.

Lemma scale_le a b k : (a * pow2 (- k) <= b)%Q -> (a <= b * pow2 k)%Q.
Proof.
  intros H. pose proof (pow2_pos k) as P.
  assert (E : (a == a * pow2 (- k) * pow2 k)%Q).
  { rewrite <- Qmult_assoc, pow2_opp_mul. ring. }
  rewrite E. apply Qmult_le_compat_r; [assumption|]. lra.
Qed.

Lemma scale_ge a b k : (b <= a * pow2 (- k))%Q -> (b * pow2 k <= a)%Q.
Proof.
  intros H. pose proof (pow2_pos k) as P.
  assert (E : (a == a * pow2 (- k) * pow2 k)%Q).
  { rewrite <- Qmult_assoc, pow2_opp_mul. ring. }
  rewrite E. apply Qmult_le_compat_r; [assumption|]. lra.
Qed.

Lemma unscale_lt a b k : (a < b * pow2 k)%Q -> (a * pow2 (- k) < b)%Q.
Proof.
  intros H. apply scale_lt in H || idtac.
  pose proof (pow2_pos (- k)) as P.
  assert (E : (b == b * pow2 k * pow2 (- k))%Q).
  { rewrite <- Qmult_assoc, (Qmult_comm (pow2 k)), pow2_opp_mul. ring. }
  rewrite E. apply Qmult_lt_compat_r; assumption.
Qed.

Lemma unscale_le a b k : (a <= b * pow2 k)%Q -> (a * pow2 (- k) <= b)%Q.
Proof.
  intros H. pose proof (pow2_pos (- k)) as P.
  assert (E : (b == b * pow2 k * pow2 (- k))%Q).
  { rewrite <- Qmult_assoc, (Qmult_comm (pow2 k)), pow2_opp_mul. ring. }
  rewrite E. apply Qmult_le_compat_r; [assumption|]. lra.
Qed.

Lemma unscale_ge a b k : (b * pow2 k <= a)%Q -> (b <= a * pow2 (- k))%Q.
Proof.
  intros H. pose proof (pow2_pos (- k)) as P.
  assert (E : (b == b * pow2 k * pow2 (- k))%Q).
  { rewrite <- Qmult_assoc, (Qmult_comm (pow2 k)), pow2_opp_mul. ring. }
  rewrite E. apply Qmult_le_compat_r; [assumption|]. lra.
Qed.

Lemma shr_nonpos mrs e n : n <= 0 -> shr mrs e n = (mrs, e).
Proof. destruct n; try reflexivity. lia. Qed.

Lemma inject_Z_lt_inv a b : (inject_Z a < inject_Z b)%Q -> a < b.
Proof. intros H. now rewrite Zlt_Qlt. Qed.

Lemma inject_Z_le_inv a b : (inject_Z a <= inject_Z b)%Q -> a <= b.
Proof. intros H. now rewrite Zle_Qle. Qed.

(** An integer below a rational that is below an integer. *)
Lemma int_lt_of_le_lt a b (t : Q) :
  (inject_Z a <= t)%Q -> (t < inject_Z b)%Q -> a < b.
Proof. intros H1 H2. apply inject_Z_lt_inv. lra. Qed.

Lemma int_le_of_lt_succ a b (t : Q) :
  (inject_Z a <= t)%Q -> (t < inject_Z b + 1)%Q -> a <= b.
Proof.
  intros H1 H2.
  assert (a < b + 1); [|lia].
  apply inject_Z_lt_inv. rewrite inject_Z_plus.
  change (inject_Z 1) with 1%Q. lra.
Qed.

(** Magnitude of the exact value from the digits of the truncated
    mantissa. *)
Lemma magnitude_upper mx ex lx x :
  0 <= mx -> inbetween (x * pow2 (- ex)) mx lx ->
  (x < pow2 (Zdigits2 mx + ex))%Q.
Proof.
  intros Hm H. apply inbetween_bounds in H. destruct H as [_ H].
  rewrite pow2_add. apply scale_lt.
  assert (mx + 1 <= 2 ^ Zdigits2 mx).
  { destruct (Z.eq_dec mx 0) as [->|N]; [simpl; lia|].
    pose proof (Zdigits2_pos mx). lia. }
  rewrite (pow2_inject (Zdigits2 mx)) by apply Zdigits2_nonneg.
  apply Qlt_le_trans with (inject_Z mx + 1)%Q; [exact H|].
  change 1%Q with (inject_Z 1). rewrite <- inject_Z_plus.
  now rewrite <- Zle_Qle.
Qed.

Lemma magnitude_lower mx ex lx x :
  0 < mx -> inbetween (x * pow2 (- ex)) mx lx ->
  (pow2 (Zdigits2 mx + ex - 1) <= x)%Q.
Proof.
  intros Hm H. apply inbetween_bounds in H. destruct H as [H _].
  replace (Zdigits2 mx + ex - 1) with ((Zdigits2 mx - 1) + ex) by lia.
  rewrite pow2_add. apply scale_ge.
  pose proof (Zdigits2_pos mx Hm) as [B _].
  rewrite (pow2_inject (Zdigits2 mx - 1))
    by (pose proof (Zdigits2_ge mx 1); simpl in *; lia).
  apply Qle_trans with (inject_Z mx); [|exact H].
  now rewrite <- Zle_Qle.
Qed.

(** Given a mantissa that truncates the exact value [x] on a grid not
    coarser than the target one, the kernel rounds [x] to nearest, and
    below the overflow threshold its result is a well-formed datum
    holding the rounded value. *)
Lemma binary_round_aux_correct sx mx ex lx x :
  0 <= mx ->
  inbetween (x * pow2 (- ex)) mx lx ->
  ex <= fexp (Zdigits2 mx + ex) ->
  exists v,
    RN x v /\
    ((v < pow2 emax)%Q ->
     let r := binary_round_aux prec emax sx mx ex lx in
     valid r = true /\
     (to_Q r == if sx then - v else v)%Q /\
     (r = S754_zero sx \/ exists m e, r = S754_finite sx m e)).
Proof.
  intros Hmx Hin Hn.
  pose proof (magnitude_upper mx ex lx x Hmx Hin) as Hup.
  set (D := Zdigits2 mx + ex) in *.
  assert (Hlow : (pow2 (D - 1) <= x)%Q \/ fexp D = -1074).
  { destruct (Z.eq_dec mx 0) as [E|N].
    - right. subst mx. unfold D in *. simpl in *. rewrite fexp_eq in *. lia.
    - left. apply (magnitude_lower mx ex lx); [lia|exact Hin]. }
  unfold binary_round_aux.
  change (shr_fexp prec emax mx ex lx)
    with (shr (shr_record_of_loc mx lx) ex (fexp D - ex)).
  remember (fexp D) as e1 eqn:He1f.
  assert (He1 : e1 = Z.max (D - 53) (-1074)) by (now rewrite He1f, fexp_eq).
  (* first shift *)
  assert (Hok0 : mrs_ok (x * pow2 (- ex)) (shr_record_of_loc mx lx)).
  { split; rewrite ?shr_m_shr_record_of_loc, ?loc_of_shr_record_of_loc;
      assumption. }
  destruct (shr_ok _ _ ex (e1 - ex) Hok0) as [Hok1 He1'].
  replace (Z.max 0 (e1 - ex)) with (e1 - ex) in * by lia.
  replace (ex + (e1 - ex)) with e1 in He1' by lia.
  destruct (shr (shr_record_of_loc mx lx) ex (e1 - ex)) as [mrs1 e1'].
  simpl in Hok1, He1'. subst e1'.
  destruct Hok1 as [Hm1 Hin1].
  apply (inbetween_ext _ (x * pow2 (- e1))) in Hin1.
  2:{ rewrite <- Qmult_assoc, <- pow2_add.
      replace (- ex + - (e1 - ex)) with (- e1) by lia. reflexivity. }
  set (m1 := shr_m mrs1) in *.
  set (l1 := loc_of_shr_record mrs1) in *.
  destruct (round_nearest_even_ok _ _ _ Hin1) as [Hm2 [Hlo Hhi]].
  set (m2 := round_nearest_even m1 l1) in *.
  clearbody m2 m1 l1.
  pose proof (inbetween_bounds _ _ _ Hin1) as [Hfl1 Hfl2].
  (* the truncated mantissa has at most 53 bits *)
  assert (Ht1 : (x * pow2 (- e1) < pow2 (D - e1))%Q).
  { apply unscale_lt. rewrite <- pow2_add.
    replace (D - e1 + e1) with D by lia. exact Hup. }
  assert (Hm1' : m1 < 2 ^ 53).
  { apply (int_lt_of_le_lt _ _ _ Hfl1).
    rewrite <- (pow2_inject 53) by lia.
    apply Qlt_le_trans with (1 := Ht1). apply pow2_le. lia. }
  (* in the normal range it has exactly 53 bits *)
  assert (Hnorm : -1074 < e1 -> 2 ^ 52 <= m1).
  { intros Hgt. destruct Hlow as [Hlow|Hlow]; [|lia].
    apply (int_le_of_lt_succ _ _ (x * pow2 (- e1))); [|exact Hfl2].
    rewrite <- (pow2_inject 52) by lia.
    apply unscale_ge. rewrite <- pow2_add.
    replace (52 + e1) with (D - 1) by lia. exact Hlow. }
  exists (inject_Z m2 * pow2 e1)%Q. split.
  { exists D, m2. rewrite <- He1f.
    repeat split; try assumption; try lia; reflexivity. }
  intros Hv.
  assert (Hover : 2 ^ 52 <= m2 -> e1 <= 971).
  { intros Hbig.
    destruct (Z_le_gt_dec e1 971) as [L|G]; [exact L|exfalso].
    assert (pow2 1024 <= inject_Z m2 * pow2 e1)%Q; [|unfold emax in Hv; lra].
    apply Qle_trans with (inject_Z (2 ^ 52) * pow2 e1)%Q.
    - rewrite <- (pow2_inject 52) by lia. rewrite <- pow2_add.
      apply pow2_le. lia.
    - apply Qmult_le_compat_r; [|pose proof (pow2_pos e1); lra].
      now rewrite <- Zle_Qle. }
  destruct (Z.eq_dec m2 (2 ^ 53)) as [E53|N53].
  - (* rounding up to the next binade: one more shift *)
    assert (Ee : e1 = D - 53).
    { assert (2 ^ 52 <= m1) by lia.
      destruct (Z_lt_le_dec (D - e1) 53) as [L|G]; [|lia].
      exfalso.
      assert (m1 < 2 ^ 52); [|lia].
      apply (int_lt_of_le_lt _ _ _ Hfl1).
      rewrite <- (pow2_inject 52) by lia.
      apply Qlt_le_trans with (1 := Ht1). apply pow2_le. lia. }
    assert (Hover' : e1 + 1 <= 971).
    { destruct (Z_le_gt_dec (e1 + 1) 971) as [L|G]; [exact L|exfalso].
      assert (pow2 1024 <= inject_Z m2 * pow2 e1)%Q; [|unfold emax in Hv; lra].
      rewrite E53. rewrite <- (pow2_inject 53) by lia. rewrite <- pow2_add.
      apply pow2_le. lia. }
    rewrite E53.
    change (shr_fexp prec emax (2 ^ 53) e1 loc_Exact)
      with (shr (Build_shr_record (2 ^ 53) false false) e1
              (fexp (54 + e1) - e1)).
    replace (fexp (54 + e1) - e1) with 1 by (rewrite fexp_eq; lia).
    cbn -[Z.add Z.leb Z.sub]. unfold prec, emax.
    replace (e1 + 1 <=? 1024 - 53) with true by (symmetry; apply Z.leb_le; lia).
    split; [|split].
    + unfold valid, valid_binary, bounded, canonical_mantissa.
      apply andb_true_iff. split.
      * apply Z.eqb_eq. change (Zpos (digits2_pos 4503599627370496)) with 53.
        change (SpecFloat.fexp prec emax) with fexp. rewrite fexp_eq. lia.
      * apply Z.leb_le. unfold emax, prec. lia.
    + unfold to_Q.
      rewrite pow2_succ. destruct sx; simpl cond_Zopp; unfold inject_Z; ring.
    + right. eauto.
  - (* no further shift *)
    assert (Hm2' : m2 < 2 ^ 53) by lia.
    assert (Hd2 : Zdigits2 m2 <= 53) by (apply Zdigits2_le; lia).
    change (shr_fexp prec emax m2 e1 loc_Exact)
      with (shr (Build_shr_record m2 false false) e1
              (fexp (Zdigits2 m2 + e1) - e1)).
    rewrite shr_nonpos by (rewrite fexp_eq; lia).
    simpl shr_m.
    destruct m2 as [|p|p] eqn:Em2; [| |lia].
    + split; [reflexivity|]. split; [|left; reflexivity].
      simpl to_Q. change (inject_Z 0) with 0%Q. destruct sx; ring.
    + assert (Hcan : fexp (Zdigits2 (Zpos p) + e1) = e1).
      { rewrite fexp_eq.
        destruct (Z_le_gt_dec e1 (-1074)) as [L|G]; [lia|].
        assert (53 <= Zdigits2 (Zpos p)); [|lia].
        apply Zdigits2_ge; [|lia]. specialize (Hnorm ltac:(lia)).
        simpl. lia. }
      assert (Hov : e1 <= 971).
      { destruct (Z_le_gt_dec e1 971) as [L|G]; [exact L|].
        apply Hover. specialize (Hnorm ltac:(lia)). lia. }
      unfold prec, emax.
      replace (e1 <=? 1024 - 53) with true by (symmetry; apply Z.leb_le; lia).
      split; [|split].
      * unfold valid, valid_binary, bounded, canonical_mantissa.
        apply andb_true_iff. split.
        -- apply Z.eqb_eq. exact Hcan.
        -- apply Z.leb_le. unfold emax, prec. lia.
      * unfold to_Q. destruct sx; simpl cond_Zopp.
        -- change (inject_Z (Zneg p)) with (- inject_Z (Zpos p))%Q. ring.
        -- reflexivity.
      * right. eauto.
Qed.


(** ** What rounding to nearest guarantees *)

Lemma pow2_lt_inv a b : (pow2 a < pow2 b)%Q -> a < b.
Proof.
  intros H. destruct (Z_lt_le_dec a b) as [L|G]; [exact L|exfalso].
  apply pow2_le in G. lra.
Qed.

Lemma Rep_on_grid M E f :
  f <= E -> (inject_Z M * pow2 E == inject_Z (M * 2 ^ (E - f)) * pow2 f)%Q.
Proof.
  intros H. rewrite inject_Z_mult, <- (pow2_inject (E - f)) by lia.
  rewrite <- Qmult_assoc, <- pow2_add.
  replace (E - f + f) with E by lia. reflexivity.
Qed.

Lemma Rep_below M E D :
  0 <= M < 2 ^ 53 -> E < D - 53 -> (inject_Z M * pow2 E < pow2 (D - 1))%Q.
Proof.
  intros HM HE.
  apply Qlt_le_trans with (inject_Z (2 ^ 53) * pow2 E)%Q.
  - apply Qmult_lt_compat_r; [apply pow2_pos|].
    rewrite <- Zlt_Qlt. lia.
  - rewrite <- (pow2_inject 53) by lia. rewrite <- pow2_add.
    apply pow2_le. lia.
Qed.

(** Rounding is monotone against representable bounds. *)
Lemma RN_upper x v b : RN x v -> Rep b -> (x <= b)%Q -> (v <= b)%Q.
Proof.
  intros (D & m & Hup & Hlow & Hm & Hv & Hlo & Hhi) (M & E & HM & HE & Hb) Hx.
  rewrite fexp_eq in *. set (f := Z.max (D - 53) (-1074)) in *.
  destruct (Z_le_gt_dec f E) as [L|G].
  - rewrite (Rep_on_grid M E f L) in Hb.
    rewrite Hv, Hb.
    apply Qmult_le_compat_r; [|pose proof (pow2_pos f); lra].
    rewrite <- Zle_Qle.
    assert (m < M * 2 ^ (E - f) + 1); [|lia].
    apply inject_Z_lt_inv. rewrite inject_Z_plus.
    change (inject_Z 1) with 1%Q.
    assert (x * pow2 (- f) <= inject_Z (M * 2 ^ (E - f)))%Q; [|lra].
    apply unscale_le. now rewrite <- Hb.
  - exfalso.
    assert (inject_Z M * pow2 E < pow2 (D - 1))%Q
      by (apply Rep_below; [exact HM|lia]).
    destruct Hlow as [Hlow|Hlow]; [lra|lia].
Qed.

Lemma RN_lower x v b : RN x v -> Rep b -> (b <= x)%Q -> (b <= v)%Q.
Proof.
  intros (D & m & Hup & Hlow & Hm & Hv & Hlo & Hhi) (M & E & HM & HE & Hb) Hx.
  rewrite fexp_eq in *. set (f := Z.max (D - 53) (-1074)) in *.
  destruct (Z_le_gt_dec f E) as [L|G].
  - rewrite (Rep_on_grid M E f L) in Hb.
    rewrite Hv, Hb.
    apply Qmult_le_compat_r; [|pose proof (pow2_pos f); lra].
    rewrite <- Zle_Qle.
    assert (M * 2 ^ (E - f) < m + 1); [|lia].
    apply inject_Z_lt_inv. rewrite inject_Z_plus.
    change (inject_Z 1) with 1%Q.
    assert (inject_Z (M * 2 ^ (E - f)) <= x * pow2 (- f))%Q; [|lra].
    apply unscale_ge. now rewrite <- Hb.
  - assert (Hb' : (inject_Z M * pow2 E < pow2 (D - 1))%Q)
      by (apply Rep_below; [exact HM|lia]).
    destruct Hlow as [Hlow|Hlow]; [|lia].
    assert (Ef : f = D - 53) by lia.
    assert (2 ^ 52 <= m).
    { assert (2 ^ 52 < m + 1); [|lia].
      apply inject_Z_lt_inv. rewrite inject_Z_plus.
      change (inject_Z 1) with 1%Q.
      assert (inject_Z (2 ^ 52) <= x * pow2 (- f))%Q; [|lra].
      apply unscale_ge. rewrite <- (pow2_inject 52) by lia.
      rewrite <- pow2_add. replace (52 + f) with (D - 1) by lia.
      exact Hlow. }
    rewrite Hb, Hv.
    apply Qle_trans with (pow2 (D - 1)); [lra|].
    replace (D - 1) with (52 + f) by lia.
    rewrite pow2_add, (pow2_inject 52) by lia.
    apply Qmult_le_compat_r; [|pose proof (pow2_pos f); lra].
    now rewrite <- Zle_Qle.
Qed.

Lemma RN_exact x v : RN x v -> Rep x -> (v == x)%Q.
Proof.
  intros H R. apply Qle_antisym.
  - apply (RN_upper x v x H R). lra.
  - apply (RN_lower x v x H R). lra.
Qed.

Lemma RN_nonneg x v : RN x v -> (0 <= v)%Q.
Proof.
  intros (D & m & Hup & Hlow & Hm & Hv & Hlo & Hhi).
  rewrite Hv. apply Qmult_le_0_compat.
  - change 0%Q with (inject_Z 0). now rewrite <- Zle_Qle.
  - pose proof (pow2_pos (fexp D)). lra.
Qed.

(** The standard model in the normal range: a relative error of at most
    2^-53. *)
Lemma RN_relative x v :
  RN x v -> (pow2 (-1022) <= x)%Q ->
  (x * (1 - pow2 (-53)) <= v /\ v <= x * (1 + pow2 (-53)))%Q.
Proof.
  intros (D & m & Hup & Hlow & Hm & Hv & Hlo & Hhi) Hx.
  rewrite fexp_eq in *. set (f := Z.max (D - 53) (-1074)) in *.
  assert (HD : -1022 < D) by (apply pow2_lt_inv; lra).
  assert (Ef : f = D - 53) by lia.
  assert (Hlow' : (pow2 (D - 1) <= x)%Q).
  { destruct Hlow as [Hlow|Hlow]; [exact Hlow|].
    replace (D - 1) with (-1022) by lia. exact Hx. }
  assert (Hhalf : (pow2 (f - 1) <= x * pow2 (-53))%Q).
  { replace (f - 1) with ((D - 1) + -53) by lia. rewrite pow2_add.
    apply Qmult_le_compat_r; [exact Hlow'|].
    pose proof (pow2_pos (-53)). lra. }
  rewrite pow2_pred in Hhalf.
  assert (Hx' : (x == x * pow2 (- f) * pow2 f)%Q).
  { rewrite <- Qmult_assoc, pow2_opp_mul. ring. }
  pose proof (pow2_pos f) as Pf.
  set (t := (x * pow2 (- f))%Q) in *.
  set (pf := pow2 f) in *. set (u := pow2 (-53)) in *.
  assert (A1 : ((inject_Z m - (1 # 2)) * pf <= t * pf)%Q)
    by (apply Qmult_le_compat_r; lra).
  assert (A2 : (t * pf <= (inject_Z m + (1 # 2)) * pf)%Q)
    by (apply Qmult_le_compat_r; lra).
  split; lra.
Qed.

(** ** Rounding an integer mantissa: [binary_round] and [of_int] *)

Lemma fexp_mono a b : a <= b -> fexp a <= fexp b.
Proof. rewrite !fexp_eq. lia. Qed.

Lemma iter_xO_pow2 m d : Zpos (Pos.iter xO m d) = Zpos m * 2 ^ Zpos d.
Proof.
  induction d as [|d IH] using Pos.peano_ind.
  - simpl. lia.
  - rewrite Pos.iter_succ, Pos2Z.inj_succ, Z.pow_succ_r by lia.
    change (Zpos (Pos.iter xO m d)~0) with (2 * Zpos (Pos.iter xO m d)).
    rewrite IH. ring.
Qed.

Lemma Zdigits2_shift m k :
  0 < m -> 0 <= k -> Zdigits2 (m * 2 ^ k) = Zdigits2 m + k.
Proof.
  intros Hm Hk. pose proof (Zdigits2_pos m Hm) as [B1 B2].
  assert (0 < 2 ^ k) by (apply Z.pow_pos_nonneg; lia).
  assert (1 <= Zdigits2 m) by (apply (Zdigits2_ge m 1); simpl; lia).
  apply Z.le_antisymm.
  - apply Zdigits2_le; [|lia]. rewrite Z.pow_add_r by lia. nia.
  - apply Zdigits2_ge; [|lia].
    replace (Zdigits2 m + k - 1) with ((Zdigits2 m - 1) + k) by lia.
    rewrite Z.pow_add_r by lia. nia.
Qed.

(** Alignment of a mantissa on a smaller exponent. *)
Lemma shl_align_ok mx ex ex' :
  let ez := Z.min ex ex' in
  shl_align mx ex ex'
  = (Z.to_pos (Zpos mx * 2 ^ (ex - ez)), ez).
Proof.
  unfold shl_align. cbv zeta.
  destruct (ex' - ex) as [|d|d] eqn:E.
  - replace (Z.min ex ex') with ex by lia.
    rewrite Z.sub_diag. simpl. now rewrite Pos.mul_1_r.
  - replace (Z.min ex ex') with ex by lia.
    rewrite Z.sub_diag. simpl. now rewrite Pos.mul_1_r.
  - replace (Z.min ex ex') with ex' by lia.
    replace (ex - ex') with (Zpos d) by lia.
    rewrite <- iter_xO_pow2. reflexivity.
Qed.

Lemma Zpos_to_pos z : 0 < z -> Zpos (Z.to_pos z) = z.
Proof. intros H. now apply Z2Pos.id. Qed.

Lemma binary_round_correct sx mx ex :
  exists v,
    RN (inject_Z (Zpos mx) * pow2 ex) v /\
    ((v < pow2 emax)%Q ->
     let r := binary_round prec emax sx mx ex in
     valid r = true /\
     (to_Q r == if sx then - v else v)%Q /\
     shape sx r).
Proof.
  unfold binary_round.
  change (Zpos (digits2_pos mx)) with (Zdigits2 (Zpos mx)).
  change (SpecFloat.fexp prec emax) with fexp.
  set (D := Zdigits2 (Zpos mx) + ex).
  rewrite shl_align_ok. cbv zeta.
  set (ez := Z.min ex (fexp D)).
  assert (Hpos : 0 < Zpos mx * 2 ^ (ex - ez)).
  { assert (0 < 2 ^ (ex - ez)) by (apply Z.pow_pos_nonneg; lia). lia. }
  rewrite (Zpos_to_pos _ Hpos).
  apply binary_round_aux_correct.
  - lia.
  - unfold inbetween.
    rewrite inject_Z_mult, <- (pow2_inject (ex - ez)) by lia.
    rewrite <- !Qmult_assoc, <- !pow2_add.
    replace (ex - ez) with (ex + - ez) by lia. reflexivity.
  - rewrite Zdigits2_shift by lia.
    replace (Zdigits2 (Zpos mx) + (ex - ez) + ez) with D by lia.
    lia.
Qed.

Lemma RN_ext x x' v : (x == x')%Q -> RN x v -> RN x' v.
Proof.
  intros E (D & m & Hup & Hlow & Hm & Hv & Hlo & Hhi).
  exists D, m. rewrite <- E. repeat split; assumption.
Qed.

Lemma Rep_int z : 0 <= z < 2 ^ 53 -> Rep (inject_Z z).
Proof.
  intros H. exists z, 0. split; [exact H|]. split; [lia|].
  rewrite pow2_0. ring.
Qed.

Lemma pow2_53_emax : (pow2 53 < pow2 emax)%Q.
Proof. apply pow2_lt. unfold emax. lia. Qed.

Lemma of_int_exact z :
  0 <= z < 2 ^ 53 ->
  valid (of_int z) = true /\
  (to_Q (of_int z) == inject_Z z)%Q /\
  (z = 0 /\ of_int z = S754_zero false \/
   0 < z /\ exists m e, of_int z = S754_finite false m e).
Proof.
  intros H. destruct z as [|p|p]; [| |lia].
  - split; [reflexivity|]. split; [reflexivity|]. left. split; reflexivity.
  - unfold of_int, binary_normalize.
    destruct (binary_round_correct false p 0) as (v & Hv & Hr).
    apply (RN_ext _ (inject_Z (Zpos p))) in Hv;
      [|rewrite pow2_0; ring].
    pose proof (RN_exact _ _ Hv (Rep_int _ H)) as E.
    assert (Hlt : (v < pow2 emax)%Q).
    { rewrite E. apply Qlt_trans with (pow2 53); [|apply pow2_53_emax].
      rewrite (pow2_inject 53) by lia. rewrite <- Zlt_Qlt. lia. }
    destruct (Hr Hlt) as (V & Q & S). cbv zeta in *.
    split; [exact V|]. split; [now rewrite Q, E|].
    right. split; [lia|].
    destruct S as [S|S]; [|exact S].
    exfalso. rewrite S in Q. simpl in Q. rewrite E in Q.
    assert (0 < inject_Z (Zpos p))%Q by (rewrite <- (Zlt_Qlt 0); lia).
    lra.
Qed.

(** ** Multiplication, addition and division of positive numbers *)

Lemma valid_canonical s m e :
  valid (S754_finite s m e) = true ->
  fexp (Zdigits2 (Zpos m) + e) = e /\ e <= 971.
Proof.
  unfold valid, valid_binary, bounded, canonical_mantissa.
  intros H. apply andb_true_iff in H. destruct H as [H1 H2].
  apply Z.eqb_eq in H1. apply Z.leb_le in H2. split; assumption.
Qed.

Lemma Zdigits2_mul a b :
  0 < a -> 0 < b -> Zdigits2 a + Zdigits2 b - 1 <= Zdigits2 (a * b).
Proof.
  intros Ha Hb.
  pose proof (Zdigits2_pos a Ha) as [A _].
  pose proof (Zdigits2_pos b Hb) as [B _].
  assert (1 <= Zdigits2 a) by (apply (Zdigits2_ge a 1); simpl; lia).
  assert (1 <= Zdigits2 b) by (apply (Zdigits2_ge b 1); simpl; lia).
  apply Zdigits2_ge; [|lia].
  replace (Zdigits2 a + Zdigits2 b - 1 - 1)
    with ((Zdigits2 a - 1) + (Zdigits2 b - 1)) by lia.
  rewrite Z.pow_add_r by lia.
  assert (0 < 2 ^ (Zdigits2 a - 1)) by (apply Z.pow_pos_nonneg; lia).
  assert (0 < 2 ^ (Zdigits2 b - 1)) by (apply Z.pow_pos_nonneg; lia).
  nia.
Qed.

Lemma mul_correct mx ex my ey :
  valid (S754_finite false mx ex) = true ->
  valid (S754_finite false my ey) = true ->
  exists v,
    RN (to_Q (S754_finite false mx ex) * to_Q (S754_finite false my ey)) v /\
    ((v < pow2 emax)%Q ->
     let r := SFmul prec emax (S754_finite false mx ex)
                    (S754_finite false my ey) in
     valid r = true /\ (to_Q r == v)%Q /\ shape false r).
Proof.
  intros Vx Vy.
  apply valid_canonical in Vx, Vy. destruct Vx as [Cx _], Vy as [Cy _].
  rewrite fexp_eq in Cx, Cy.
  unfold SFmul. change (xorb false false) with false.
  apply (binary_round_aux_correct false).
  - lia.
  - unfold inbetween, to_Q. simpl cond_Zopp.
    rewrite Pos2Z.inj_mul, inject_Z_mult.
    replace (- (ex + ey)) with (- ex + - ey) by lia. rewrite pow2_add.
    transitivity (inject_Z (Zpos mx) * inject_Z (Zpos my)
                  * (pow2 (- ex) * pow2 ex) * (pow2 (- ey) * pow2 ey))%Q;
      [ring|].
    rewrite !pow2_opp_mul. ring.
  - rewrite fexp_eq. rewrite Pos2Z.inj_mul.
    pose proof (Zdigits2_mul (Zpos mx) (Zpos my)).
    assert (1 <= Zdigits2 (Zpos mx)) by (apply (Zdigits2_ge _ 1); simpl; lia).
    assert (1 <= Zdigits2 (Zpos my)) by (apply (Zdigits2_ge _ 1); simpl; lia).
    lia.
Qed.

Lemma add_correct mx ex my ey :
  exists v,
    RN (to_Q (S754_finite false mx ex) + to_Q (S754_finite false my ey)) v /\
    ((v < pow2 emax)%Q ->
     let r := SFadd prec emax (S754_finite false mx ex)
                    (S754_finite false my ey) in
     valid r = true /\ (to_Q r == v)%Q /\ shape false r).
Proof.
  unfold SFadd. rewrite !shl_align_ok. cbv zeta. simpl fst.
  set (ez := Z.min ex ey).
  replace (Z.min ex ez) with ez by lia.
  replace (Z.min ey ez) with ez by lia.
  assert (Ha : 0 < Zpos mx * 2 ^ (ex - ez)).
  { assert (0 < 2 ^ (ex - ez)) by (apply Z.pow_pos_nonneg; lia). lia. }
  assert (Hb : 0 < Zpos my * 2 ^ (ey - ez)).
  { assert (0 < 2 ^ (ey - ez)) by (apply Z.pow_pos_nonneg; lia). lia. }
  simpl cond_Zopp.
  set (a := Z.to_pos (Zpos mx * 2 ^ (ex - ez))).
  set (b := Z.to_pos (Zpos my * 2 ^ (ey - ez))).
  change (Zpos a + Zpos b) with (Zpos (a + b)).
  unfold binary_normalize.
  destruct (binary_round_correct false (a + b) ez) as (v & Hv & Hr).
  exists v. split; [|exact Hr].
  revert Hv. apply RN_ext.
  rewrite Pos2Z.inj_add. unfold a, b. rewrite !Zpos_to_pos by assumption.
  unfold to_Q. simpl cond_Zopp.
  rewrite inject_Z_plus, !inject_Z_mult.
  rewrite <- (pow2_inject (ex - ez)), <- (pow2_inject (ey - ez)) by lia.
  rewrite Qmult_plus_distr_l, <- !Qmult_assoc, <- !pow2_add.
  replace (ex - ez + ez) with ex by lia.
  replace (ey - ez + ez) with ey by lia. reflexivity.
Qed.

(** The location computed from the remainder of the integer division. *)
Lemma new_location_ok m2 q r (t : Q) :
  0 < m2 -> 0 <= r < m2 ->
  (t * inject_Z m2 == inject_Z (m2 * q + r))%Q ->
  inbetween t q (new_location m2 r).
Proof.
  intros Hm Hr Ht.
  rewrite inject_Z_plus, inject_Z_mult in Ht.
  assert (HM : (0 < inject_Z m2)%Q) by (rewrite <- (Zlt_Qlt 0); exact Hm).
  assert (HR : (0 <= inject_Z r)%Q) by (rewrite <- (Zle_Qle 0); lia).
  set (M := inject_Z m2) in *. set (R := inject_Z r) in *.
  set (K := inject_Z q) in *.
  assert (Hlt : forall a b : Q, (a * M < b * M)%Q -> (a < b)%Q).
  { intros a b H. destruct (Qlt_le_dec a b) as [L|G]; [exact L|exfalso].
    assert (b * M <= a * M)%Q by (apply Qmult_le_compat_r; lra). lra. }
  assert (Heq : forall a b : Q, (a * M == b * M)%Q -> (a == b)%Q).
  { intros a b H. apply Qmult_inj_r in H; [exact H|]. lra. }
  assert (C2 : forall c, (2 * r ?= m2) = c ->
               match c with
               | Lt => (2 * R < M)%Q | Eq => (2 * R == M)%Q
               | Gt => (M < 2 * R)%Q end).
  { intros c Hc. unfold R, M.
    change 2%Q with (inject_Z 2). rewrite <- inject_Z_mult.
    destruct (Z.compare_spec (2 * r) m2); subst c.
    - now apply inject_Z_injective.
    - now rewrite <- Zlt_Qlt.
    - now rewrite <- Zlt_Qlt. }
  assert (C0 : r = 0 -> (R == 0)%Q) by (intros ->; reflexivity).
  assert (C1 : r <> 0 -> (0 < R)%Q).
  { intros N. unfold R. rewrite <- (Zlt_Qlt 0). lia. }
  unfold new_location, new_location_even, new_location_odd.
  destruct (Z.even m2) eqn:Ev.
  - destruct (Z.eqb_spec r 0) as [E0|N0].
    + apply C0 in E0. simpl; fold K. apply Heq. lra.
    + apply C1 in N0. specialize (C2 _ eq_refl).
      destruct (2 * r ?= m2); simpl; fold K.
      * apply Heq. lra.
      * split; apply Hlt; lra.
      * assert (R < M)%Q by (unfold R, M; rewrite <- Zlt_Qlt; lia).
        split; apply Hlt; lra.
  - destruct (Z.eqb_spec r 0) as [E0|N0].
    + apply C0 in E0. simpl; fold K. apply Heq. lra.
    + apply C1 in N0.
      assert (Hodd : 2 * r <> m2).
      { intros E. rewrite <- E, Z.even_mul in Ev. discriminate Ev. }
      assert (R < M)%Q by (unfold R, M; rewrite <- Zlt_Qlt; lia).
      destruct (Z.compare_spec (2 * r + 1) m2) as [E|L|G]; simpl; fold K.
      * assert (2 * r < m2) by lia.
        assert (2 * R < M)%Q.
        { unfold R, M. change 2%Q with (inject_Z 2).
          rewrite <- inject_Z_mult, <- Zlt_Qlt. lia. }
        split; apply Hlt; lra.
      * assert (2 * r < m2) by lia.
        assert (2 * R < M)%Q.
        { unfold R, M. change 2%Q with (inject_Z 2).
          rewrite <- inject_Z_mult, <- Zlt_Qlt. lia. }
        split; apply Hlt; lra.
      * assert (m2 < 2 * r) by lia.
        assert (M < 2 * R)%Q.
        { unfold R, M. change 2%Q with (inject_Z 2).
          rewrite <- inject_Z_mult, <- Zlt_Qlt. lia. }
        split; apply Hlt; lra.
Qed.

Lemma div_correct mx ex my ey :
  exists v,
    RN (to_Q (S754_finite false mx ex) / to_Q (S754_finite false my ey)) v /\
    ((v < pow2 emax)%Q ->
     let r := SFdiv prec emax (S754_finite false mx ex)
                    (S754_finite false my ey) in
     valid r = true /\ (to_Q r == v)%Q /\ shape false r).
Proof.
  unfold SFdiv, SFdiv_core_binary.
  change (SpecFloat.fexp prec emax) with fexp.
  set (d1 := Zdigits2 (Zpos mx)). set (d2 := Zdigits2 (Zpos my)).
  set (e' := Z.min (fexp (d1 + ex - (d2 + ey))) (ex - ey)).
  set (s := ex - ey - e').
  assert (Hs : 0 <= s) by (unfold s, e'; lia).
  set (m' := match s with
             | 0 => Zpos mx
             | Zpos _ => Z.shiftl (Zpos mx) s
             | Zneg _ => 0
             end).
  assert (Em' : m' = Zpos mx * 2 ^ s).
  { unfold m'. destruct s as [|p|p] eqn:Es; [simpl; lia| |lia].
    rewrite Z.shiftl_mul_pow2 by lia. reflexivity. }
  clearbody m'.
  pose proof (Z_div_mod m' (Zpos my) ltac:(lia)) as Hdm.
  destruct (Z.div_eucl m' (Zpos my)) as [q r]. destruct Hdm as [Hdm Hr].
  change (xorb false false) with false.
  assert (H2s : 0 < 2 ^ s) by (apply Z.pow_pos_nonneg; lia).
  assert (Hq : 0 <= q) by nia.
  apply (binary_round_aux_correct false).
  - exact Hq.
  - apply new_location_ok; [lia|exact Hr|].
    rewrite <- Hdm, Em'. unfold to_Q. simpl cond_Zopp.
    rewrite inject_Z_mult, <- (pow2_inject s) by lia.
    assert (Ps : (pow2 s == pow2 ex * pow2 (- ey) * pow2 (- e'))%Q).
    { rewrite <- !pow2_add. unfold s.
      replace (ex - ey - e') with (ex + - ey + - e') by lia. reflexivity. }
    rewrite Ps.
    pose proof (pow2_pos ey). pose proof (pow2_opp_mul ey) as Oy.
    assert (0 < inject_Z (Zpos my))%Q by (rewrite <- (Zlt_Qlt 0); lia).
    set (Y := inject_Z (Zpos my)) in *. set (py := pow2 ey) in *.
    set (ny := pow2 (- ey)) in *.
    assert (Eny : (ny == / py)%Q).
    { apply Qmult_inj_r with py; [lra|]. rewrite Oy. field. lra. }
    rewrite Eny. field. split; lra.
  - apply Z.le_trans with (fexp (d1 + ex - (d2 + ey)));
      [unfold e'; lia|].
    apply fexp_mono.
    assert (d1 - d2 + s <= Zdigits2 q); [|lia].
    destruct (Z_le_gt_dec (d1 - d2 + s) 0) as [L|G];
      [pose proof (Zdigits2_nonneg q); lia|].
    apply Zdigits2_ge; [|lia].
    pose proof (Zdigits2_pos (Zpos mx) ltac:(lia)) as [A1 _].
    pose proof (Zdigits2_pos (Zpos my) ltac:(lia)) as [_ A2].
    fold d1 in A1. fold d2 in A2.
    assert (1 <= d1) by (apply (Zdigits2_ge _ 1); simpl; lia).
    assert (1 <= d2) by (apply (Zdigits2_ge _ 1); simpl; lia).
    assert (P : 2 ^ (d1 - 1 + s) = 2 ^ (d1 - d2 + s - 1) * 2 ^ d2).
    { rewrite <- Z.pow_add_r by lia. f_equal. lia. }
    assert (P1 : 2 ^ (d1 - 1 + s) = 2 ^ (d1 - 1) * 2 ^ s)
      by (rewrite <- Z.pow_add_r by lia; reflexivity).
    assert (0 < 2 ^ (d1 - d2 + s - 1)) by (apply Z.pow_pos_nonneg; lia).
    assert (2 ^ (d1 - 1 + s) <= m') by nia.
    destruct (Z_le_gt_dec (2 ^ (d1 - d2 + s - 1)) q) as [L|G']; [exact L|].
    exfalso.
    assert (q + 1 <= 2 ^ (d1 - d2 + s - 1)) by lia.
    assert (m' < Zpos my * (q + 1)) by lia.
    assert (Zpos my * (q + 1) <= Zpos my * 2 ^ (d1 - d2 + s - 1))
      by (apply Z.mul_le_mono_nonneg_l; lia).
    nia.
Qed.


(** ** The operations on zeros and positive numbers *)

Lemma shape_nn r : valid r = true -> shape false r -> nn r.
Proof.
  intros V [S|S]; split; auto. left. eexists. exact S.
Qed.

Lemma nn_nonneg a : nn a -> (0 <= to_Q a)%Q.
Proof.
  intros [_ [[s ->]|(m & e & ->)]]; simpl.
  - lra.
  - apply Qmult_le_0_compat; [|pose proof (pow2_pos e); lra].
    change 0%Q with (inject_Z 0). rewrite <- Zle_Qle. lia.
Qed.

Lemma RN_zero : RN 0 0.
Proof.
  exists (-1074), 0. rewrite fexp_eq.
  split; [apply pow2_pos|]. split; [right; lia|]. split; [lia|].
  change (inject_Z 0) with 0%Q.
  repeat split; lra.
Qed.

Lemma RN_self m e :
  valid (S754_finite false m e) = true ->
  RN (to_Q (S754_finite false m e)) (to_Q (S754_finite false m e)).
Proof.
  intros V. apply valid_canonical in V. destruct V as [C _].
  assert (I : inbetween (to_Q (S754_finite false m e) * pow2 (- e))
                        (Zpos m) loc_Exact).
  { unfold inbetween, to_Q. simpl cond_Zopp.
    rewrite <- Qmult_assoc, (Qmult_comm (pow2 e)), pow2_opp_mul. ring. }
  exists (Zdigits2 (Zpos m) + e), (Zpos m). rewrite C.
  split; [apply (magnitude_upper _ _ loc_Exact); [lia|exact I]|].
  split; [left; apply (magnitude_lower _ _ loc_Exact); [lia|exact I]|].
  split; [lia|]. split; [reflexivity|].
  unfold inbetween in I. rewrite I. split; lra.
Qed.

(** The cases in which an operand is a zero: the result is known, and it
    is the exact one. *)
Ltac exact_zero :=
  exists 0%Q;
  split; [apply (RN_ext 0); [unfold Qdiv; simpl to_Q; ring|apply RN_zero]|];
  intros _; split; [|reflexivity];
  split; [reflexivity|left; eexists; reflexivity].

(** The case of two positive operands, from the lemma of the operation. *)
Ltac from_correct H :=
  let v := fresh "v" in
  let Hv := fresh "Hv" in
  let Hr := fresh "Hr" in
  destruct H as (v & Hv & Hr);
  exists v; split; [exact Hv|];
  let L := fresh "L" in
  intros L;
  let V := fresh "V" in
  let E := fresh "E" in
  let S := fresh "S" in
  destruct (Hr L) as (V & E & S);
  split; [now apply shape_nn|exact E].

Lemma mul_nn a b :
  nn a -> nn b ->
  exists v,
    RN (to_Q a * to_Q b) v /\
    ((v < pow2 emax)%Q -> nn (mul a b) /\ (to_Q (mul a b) == v)%Q).
Proof.
  intros [Va [[sa ->]|(ma & ea & ->)]] [Vb [[sb ->]|(mb & eb & ->)]];
    [exact_zero | exact_zero | exact_zero |].
  from_correct (mul_correct ma ea mb eb Va Vb).
Qed.

Lemma add_nn a b :
  nn a -> nn b ->
  exists v,
    RN (to_Q a + to_Q b) v /\
    ((v < pow2 emax)%Q -> nn (add a b) /\ (to_Q (add a b) == v)%Q).
Proof.
  intros [Va [[sa ->]|(ma & ea & ->)]] [Vb [[sb ->]|(mb & eb & ->)]].
  - destruct sa, sb; exact_zero.
  - exists (to_Q (S754_finite false mb eb)).
    split; [apply (RN_ext (to_Q (S754_finite false mb eb)));
            [simpl; ring|now apply RN_self]|].
    intros _. split; [|reflexivity].
    split; [exact Vb|right; do 2 eexists; reflexivity].
  - exists (to_Q (S754_finite false ma ea)).
    split; [apply (RN_ext (to_Q (S754_finite false ma ea)));
            [simpl; ring|now apply RN_self]|].
    intros _. split; [|reflexivity].
    split; [exact Va|right; do 2 eexists; reflexivity].
  - from_correct (add_correct ma ea mb eb).
Qed.

Lemma div_nn a mb eb :
  nn a ->
  exists v,
    RN (to_Q a / to_Q (S754_finite false mb eb)) v /\
    ((v < pow2 emax)%Q ->
     nn (div a (S754_finite false mb eb)) /\
     (to_Q (div a (S754_finite false mb eb)) == v)%Q).
Proof.
  intros [Va [[sa ->]|(ma & ea & ->)]]; [exact_zero|].
  from_correct (div_correct ma ea mb eb).
Qed.

Lemma of_int_nn z :
  0 <= z < 2 ^ 53 -> nn (of_int z) /\ (to_Q (of_int z) == inject_Z z)%Q.
Proof.
  intros H. destruct (of_int_exact z H) as (V & E & S).
  split; [|exact E]. split; [exact V|].
  destruct S as [[_ ->]|[_ S]]; [left; eexists; reflexivity|right; exact S].
Qed.

Lemma below_emax v z : (v <= inject_Z z)%Q -> z <= 2 ^ 53 -> (v < pow2 emax)%Q.
Proof.
  intros H Hz. apply Qle_lt_trans with (1 := H).
  apply Qle_lt_trans with (pow2 53); [|apply pow2_53_emax].
  rewrite (pow2_inject 53) by lia. now rewrite <- Zle_Qle.
Qed.

(** ** The running average *)

(** Side conditions on the int64 range. *)
Ltac in_int64 :=
  unfold Int64.in_range, Int64.min_signed, Int64.max_signed; lia.

Lemma int64_add_exact a :
  Int64.in_range (a + 1) -> Int64.add a 1 = a + 1.
Proof.
  unfold Int64.in_range, Int64.add, Int64.wrap, Int64.min_signed,
    Int64.max_signed.
  intros H. rewrite Z.mod_small; lia.
Qed.


(** The three roundings of [new_average], for a stored average between
    0 and 5 and a count for which [5 * (count + 1)] is still an exact
    double. *)
Lemma new_average_chain a n s :
  nn a -> (to_Q a <= 5)%Q -> 0 <= n -> 5 * (n + 1) <= 2 ^ 53 ->
  1 <= s <= 5 ->
  exists vP vT vA : Q,
    RN (to_Q a * inject_Z n) vP /\
    RN (vP + inject_Z s) vT /\
    RN (vT / inject_Z (n + 1)) vA /\
    nn (new_average a n s) /\
    (to_Q (new_average a n s) == vA)%Q /\
    (vP <= inject_Z (5 * n))%Q /\
    (inject_Z s <= vT)%Q /\ (vT <= inject_Z (5 * (n + 1)))%Q /\
    (vA <= 5)%Q.
Proof.
  intros Na Ha Hn Hb Hs.
  pose proof (nn_nonneg a Na) as Ha0.
  unfold new_average.
  rewrite int64_add_exact by in_int64.
  destruct (of_int_nn n ltac:(lia)) as [Nc Ec].
  destruct (of_int_nn s ltac:(lia)) as [Ns Es].
  destruct (of_int_exact (n + 1) ltac:(lia)) as (V1 & E1 & S1).
  destruct S1 as [[S1 _]|[_ (m1 & e1 & S1)]]; [lia|].
  assert (In0 : (0 <= inject_Z n)%Q) by (rewrite <- (Zle_Qle 0); lia).
  assert (In1 : (0 < inject_Z (n + 1))%Q) by (rewrite <- (Zlt_Qlt 0); lia).
  (* the product *)
  destruct (mul_nn a (of_int n) Na Nc) as (vP & RP & HP).
  apply (RN_ext _ (to_Q a * inject_Z n)) in RP; [|now rewrite Ec].
  assert (BP : (vP <= inject_Z (5 * n))%Q).
  { apply (RN_upper _ _ _ RP); [apply Rep_int; lia|].
    rewrite inject_Z_mult. change (inject_Z 5) with 5%Q.
    apply Qmult_le_compat_r; assumption. }
  destruct (HP (below_emax _ _ BP ltac:(lia))) as [NP EP].
  pose proof (RN_nonneg _ _ RP) as P0.
  (* the sum *)
  destruct (add_nn _ (of_int s) NP Ns) as (vT & RT & HT).
  apply (RN_ext _ (vP + inject_Z s)) in RT; [|now rewrite EP, Es].
  assert (BT : (vT <= inject_Z (5 * (n + 1)))%Q).
  { apply (RN_upper _ _ _ RT); [apply Rep_int; lia|].
    replace (5 * (n + 1)) with (5 * n + 5) by lia.
    rewrite inject_Z_plus.
    assert (inject_Z s <= inject_Z 5)%Q by (rewrite <- Zle_Qle; lia).
    lra. }
  assert (LT : (inject_Z s <= vT)%Q).
  { apply (RN_lower _ _ _ RT); [apply Rep_int; lia|]. lra. }
  destruct (HT (below_emax _ _ BT ltac:(lia))) as [NT ET].
  (* the quotient *)
  rewrite S1.
  destruct (div_nn _ m1 e1 NT) as (vA & RA & HA).
  rewrite <- S1 in *.
  apply (RN_ext _ (vT / inject_Z (n + 1))) in RA; [|now rewrite ET, E1].
  assert (BA : (vA <= 5)%Q).
  { apply (RN_upper _ _ _ RA).
    - change 5%Q with (inject_Z 5). apply Rep_int. lia.
    - apply Qle_shift_div_r; [exact In1|].
      rewrite inject_Z_mult in BT. change (inject_Z 5) with 5%Q in BT.
      exact BT. }
  destruct (HA (below_emax _ 5 BA ltac:(lia))) as [NA EA].
  exists vP, vT, vA. repeat (split; [assumption|]). assumption.
Qed.

(** ** Accumulation of the rounding errors *)

Lemma u_bounds : (0 < u)%Q /\ (u < 1)%Q.
Proof.
  unfold u. split; [apply pow2_pos|].
  change 1%Q with (pow2 0). apply pow2_lt. lia.
Qed.

Lemma qpow_ge_1 q n : (1 <= q)%Q -> (1 <= qpow q n)%Q.
Proof.
  intros H. induction n as [|n IH]; simpl; [lra|]. nra.
Qed.

Lemma qpow_unit q n : (0 <= q)%Q -> (q <= 1)%Q ->
  (0 <= qpow q n)%Q /\ (qpow q n <= 1)%Q.
Proof.
  intros H0 H1. induction n as [|n [IH0 IH1]]; simpl; [lra|]. nra.
Qed.

Lemma qpow_3 q n :
  (qpow q (3 * S n) == qpow q (3 * n) * (q * (q * q)))%Q.
Proof.
  replace (3 * S n)%nat with (S (S (S (3 * n)))) by lia. simpl. ring.
Qed.

Lemma Qmult_le_l' a b c : (0 <= c)%Q -> (a <= b)%Q -> (c * a <= c * b)%Q.
Proof.
  intros Hc H. rewrite (Qmult_comm c a), (Qmult_comm c b).
  now apply Qmult_le_compat_r.
Qed.

(** One step of the accumulation, from above. *)
Lemma step_upper (qp s0 s nA vP vT x vA n1 : Q) :
  (1 <= qp)%Q -> (0 <= s0)%Q -> (0 <= s)%Q -> (0 < n1)%Q ->
  (nA <= s0 * qp)%Q -> (vP <= nA * (1 + u))%Q ->
  (vT <= (vP + s) * (1 + u))%Q -> (x * n1 == vT)%Q ->
  (vA <= x * (1 + u))%Q ->
  (n1 * vA <= (s0 + s) * (qp * ((1 + u) * ((1 + u) * (1 + u)))))%Q.
Proof.
  intros Hq H0 Hs Hn HA HP HT Hx HV.
  destruct u_bounds as [U0 U1]. set (w := (1 + u)%Q) in *.
  assert (W : (1 <= w)%Q) by (unfold w; lra).
  clearbody w.
  assert (A1 : (nA * w <= s0 * qp * w)%Q)
    by (apply Qmult_le_compat_r; lra).
  assert (A2 : (s * 1 <= s * qp)%Q) by (apply Qmult_le_l'; lra).
  assert (A3 : (s * qp * 1 <= s * qp * w)%Q) by (apply Qmult_le_l'; lra).
  assert (B3 : (vP + s <= (s0 + s) * qp * w)%Q).
  { setoid_replace ((s0 + s) * qp * w)%Q with (s0 * qp * w + s * qp * w)%Q
      by ring. lra. }
  assert (A4 : ((vP + s) * w <= (s0 + s) * qp * w * w)%Q)
    by (apply Qmult_le_compat_r; lra).
  assert (A5 : (n1 * vA <= n1 * (x * w))%Q) by (apply Qmult_le_l'; lra).
  assert (A6 : (n1 * (x * w) == vT * w)%Q) by (rewrite <- Hx; ring).
  assert (A7 : (vT * w <= (s0 + s) * qp * w * w * w)%Q)
    by (apply Qmult_le_compat_r; lra).
  setoid_replace ((s0 + s) * (qp * (w * (w * w))))%Q
    with ((s0 + s) * qp * w * w * w)%Q by ring.
  lra.
Qed.

(** One step of the accumulation, from below. *)
Lemma step_lower (qm s0 s nA vP vT x vA n1 : Q) :
  (0 <= qm)%Q -> (qm <= 1)%Q -> (0 <= s0)%Q -> (0 <= s)%Q -> (0 < n1)%Q ->
  (s0 * qm <= nA)%Q -> (nA * (1 - u) <= vP)%Q ->
  ((vP + s) * (1 - u) <= vT)%Q -> (x * n1 == vT)%Q ->
  (x * (1 - u) <= vA)%Q ->
  ((s0 + s) * (qm * ((1 - u) * ((1 - u) * (1 - u)))) <= n1 * vA)%Q.
Proof.
  intros Hq0 Hq1 H0 Hs Hn HA HP HT Hx HV.
  destruct u_bounds as [U0 U1]. set (w := (1 - u)%Q) in *.
  assert (W0 : (0 <= w)%Q) by (unfold w; lra).
  assert (W1 : (w <= 1)%Q) by (unfold w; lra).
  clearbody w.
  assert (A1 : (s0 * qm * w <= nA * w)%Q)
    by (apply Qmult_le_compat_r; lra).
  assert (A2 : (s * qm <= s * 1)%Q) by (apply Qmult_le_l'; lra).
  assert (A2' : (0 <= s * qm)%Q) by (apply Qmult_le_0_compat; lra).
  assert (A3 : (s * qm * w <= s * qm * 1)%Q) by (apply Qmult_le_l'; lra).
  assert (B3 : ((s0 + s) * qm * w <= vP + s)%Q).
  { setoid_replace ((s0 + s) * qm * w)%Q with (s0 * qm * w + s * qm * w)%Q
      by ring. lra. }
  assert (A4 : ((s0 + s) * qm * w * w <= (vP + s) * w)%Q)
    by (apply Qmult_le_compat_r; lra).
  assert (A5 : (n1 * (x * w) <= n1 * vA)%Q) by (apply Qmult_le_l'; lra).
  assert (A6 : (n1 * (x * w) == vT * w)%Q) by (rewrite <- Hx; ring).
  assert (A7 : ((s0 + s) * qm * w * w * w <= vT * w)%Q)
    by (apply Qmult_le_compat_r; lra).
  setoid_replace ((s0 + s) * (qm * (w * (w * w))))%Q
    with ((s0 + s) * qm * w * w * w)%Q by ring.
  lra.
Qed.

(** [(1 + v)^m] and [(1 - v)^m] against their linear bounds. *)
Lemma qpow_upper_linear (v : Q) m :
  (0 <= v)%Q ->
  (2 * inject_Z (Z.of_nat m) * v <= 1)%Q ->
  (qpow (1 + v) m <= 1 + 2 * inject_Z (Z.of_nat m) * v)%Q.
Proof.
  intros V0.
  induction m as [|m IH]; intros H.
  - change (inject_Z (Z.of_nat 0)) with 0%Q. simpl. lra.
  - rewrite Nat2Z.inj_succ in *. unfold Z.succ in *.
    rewrite inject_Z_plus in *. change (inject_Z 1) with 1%Q in *.
    assert (M0 : (0 <= inject_Z (Z.of_nat m))%Q)
      by (rewrite <- (Zle_Qle 0); lia).
    set (k := inject_Z (Z.of_nat m)) in *. clearbody k.
    assert (K : (0 <= k * v)%Q) by (apply Qmult_le_0_compat; lra).
    specialize (IH ltac:(lra)). simpl.
    assert (P : (1 <= qpow (1 + v) m)%Q) by (apply qpow_ge_1; lra).
    set (p := qpow (1 + v) m) in *. clearbody p.
    assert (A1 : ((1 + v) * p <= (1 + v) * (1 + 2 * k * v))%Q)
      by (apply Qmult_le_l'; lra).
    assert (A2 : (v * (2 * (k * v)) <= v * 1)%Q)
      by (apply Qmult_le_l'; lra).
    setoid_replace ((1 + v) * (1 + 2 * k * v))%Q
      with (1 + 2 * k * v + v + v * (2 * (k * v)))%Q in A1 by ring.
    lra.
Qed.

Lemma qpow_lower_linear (v : Q) m :
  (0 <= v)%Q -> (v <= 1)%Q ->
  (1 - inject_Z (Z.of_nat m) * v <= qpow (1 - v) m)%Q.
Proof.
  intros V0 V1.
  induction m as [|m IH].
  - change (inject_Z (Z.of_nat 0)) with 0%Q. simpl. lra.
  - rewrite Nat2Z.inj_succ. unfold Z.succ.
    rewrite inject_Z_plus. change (inject_Z 1) with 1%Q.
    assert (M0 : (0 <= inject_Z (Z.of_nat m))%Q)
      by (rewrite <- (Zle_Qle 0); lia).
    set (k := inject_Z (Z.of_nat m)) in *. clearbody k. simpl.
    destruct (qpow_unit (1 - v) m ltac:(lra) ltac:(lra)) as [P0 P1].
    set (p := qpow (1 - v) m) in *. clearbody p.
    assert (K : (0 <= k * v)%Q) by (apply Qmult_le_0_compat; lra).
    assert (A1 : ((1 - v) * (1 - k * v) <= (1 - v) * p)%Q)
      by (apply Qmult_le_l'; lra).
    assert (A2 : (0 <= v * (k * v))%Q) by (apply Qmult_le_0_compat; lra).
    setoid_replace ((1 - v) * (1 - k * v))%Q
      with (1 - k * v - v + v * (k * v))%Q in A1 by ring.
    lra.
Qed.

(** ** The running mean of a row that starts without ratings *)

Lemma new_average_first a s :
  is_finite a = true -> 1 <= s <= 5 -> new_average a 0 s = of_int s.
Proof.
  intros Hf Hs. unfold new_average.
  assert (C : s = 1 \/ s = 2 \/ s = 3 \/ s = 4 \/ s = 5) by lia.
  destruct a as [sz|si| |sf m e]; try discriminate Hf;
    destruct C as [-> | [-> | [-> | [-> | ->]]]];
    try destruct sz; try destruct sf; vm_compute; reflexivity.
Qed.

Lemma pow2_m1022_le_1 : (pow2 (-1022) <= 1)%Q.
Proof. change 1%Q with (pow2 0). apply pow2_le. lia. Qed.

Lemma inject_Z_ge_1 z : 1 <= z -> (1 <= inject_Z z)%Q.
Proof. intros H. change 1%Q with (inject_Z 1). now rewrite <- Zle_Qle. Qed.

Lemma running_mean_first a s :
  is_finite a = true -> 1 <= s <= 5 ->
  running_mean_inv 1 s (new_average a 0 s).
Proof.
  intros Hf Hs. rewrite (new_average_first a s Hf Hs).
  destruct (of_int_nn s ltac:(lia)) as [N E].
  destruct u_bounds as [U0 U1].
  assert (S1 : (1 <= inject_Z s)%Q) by (apply inject_Z_ge_1; lia).
  assert (S5 : (inject_Z s <= 5)%Q).
  { change 5%Q with (inject_Z 5). rewrite <- Zle_Qle. lia. }
  unfold running_mean_inv. rewrite E.
  change (inject_Z (Z.of_nat 1)) with 1%Q.
  split; [exact N|]. split; [exact S1|]. split; [exact S5|].
  split; [simpl Z.of_nat; lia|].
  destruct (qpow_unit (1 - u) (3 * 1) ltac:(lra) ltac:(lra)) as [_ P1].
  pose proof (qpow_ge_1 (1 + u) (3 * 1) ltac:(lra)) as P2.
  split.
  - assert (inject_Z s * qpow (1 - u) (3 * 1) <= inject_Z s * 1)%Q
      by (apply Qmult_le_l'; lra).
    lra.
  - assert (inject_Z s * 1 <= inject_Z s * qpow (1 + u) (3 * 1))%Q
      by (apply Qmult_le_l'; lra).
    lra.
Qed.

Lemma running_mean_step n S a s :
  running_mean_inv n S a -> (1 <= n)%nat -> Z.of_nat n + 1 <= 2 ^ 50 ->
  1 <= s <= 5 ->
  running_mean_inv (Datatypes.S n) (S + s) (new_average a (Z.of_nat n) s).
Proof.
  intros (Na & A1 & A5 & HS & Lo & Hi) Hn Hb Hs.
  destruct (new_average_chain a (Z.of_nat n) s Na A5 ltac:(lia) ltac:(lia) Hs)
    as (vP & vT & vA & RP & RT & RA & NA & EA & BP & LT & BT & BA).
  destruct u_bounds as [U0 U1].
  set (k := Z.of_nat n) in *.
  assert (K1 : (1 <= inject_Z k)%Q) by (apply inject_Z_ge_1; lia).
  assert (S1 : (1 <= inject_Z s)%Q) by (apply inject_Z_ge_1; lia).
  assert (K' : (inject_Z (k + 1) == inject_Z k + 1)%Q)
    by (rewrite inject_Z_plus; reflexivity).
  pose proof (RN_nonneg _ _ RP) as P0.
  (* lower bounds *)
  assert (XP : (inject_Z k <= to_Q a * inject_Z k)%Q).
  { assert (1 * inject_Z k <= to_Q a * inject_Z k)%Q
      by (apply Qmult_le_compat_r; lra). lra. }
  assert (LP : (inject_Z k <= vP)%Q).
  { apply (RN_lower _ _ _ RP); [apply Rep_int; lia|exact XP]. }
  assert (LT' : (inject_Z (k + 1) <= vT)%Q).
  { apply (RN_lower _ _ _ RT); [apply Rep_int; lia|]. lra. }
  assert (XA : (1 <= vT / inject_Z (k + 1))%Q).
  { apply Qle_shift_div_l; lra. }
  assert (LA : (1 <= vA)%Q).
  { apply (RN_lower _ _ _ RA); [|exact XA].
    change 1%Q with (inject_Z 1). apply Rep_int. lia. }
  (* relative errors *)
  pose proof pow2_m1022_le_1 as T.
  destruct (RN_relative _ _ RP ltac:(lra)) as [RPl RPu].
  destruct (RN_relative _ _ RT ltac:(lra)) as [RTl RTu].
  destruct (RN_relative _ _ RA ltac:(lra)) as [RAl RAu].
  fold u in RPl, RPu, RTl, RTu, RAl, RAu.
  rewrite (Qmult_comm (to_Q a)) in RPl, RPu.
  assert (EX : (vT / inject_Z (k + 1) * inject_Z (k + 1) == vT)%Q)
    by (field; lra).
  assert (I0 : (0 <= inject_Z S)%Q) by (rewrite <- (Zle_Qle 0); lia).
  unfold running_mean_inv.
  rewrite Nat2Z.inj_succ. fold k. unfold Z.succ.
  rewrite EA, !qpow_3, (inject_Z_plus S s).
  split; [exact NA|]. split; [exact LA|]. split; [exact BA|].
  split; [lia|].
  split.
  - destruct (qpow_unit (1 - u) (3 * n) ltac:(lra) ltac:(lra)) as [Q0 Q1].
    apply (step_lower _ _ _ (inject_Z k * to_Q a) vP vT
             (vT / inject_Z (k + 1))); try assumption; lra.
  - pose proof (qpow_ge_1 (1 + u) (3 * n) ltac:(lra)) as Q1.
    apply (step_upper _ _ _ (inject_Z k * to_Q a) vP vT
             (vT / inject_Z (k + 1))); try assumption; lra.
Qed.

(** From the two-sided bound to a relative tolerance. *)
Lemma running_mean_tolerance n S a :
  running_mean_inv n S a -> (1 <= n)%nat -> Z.of_nat n <= 2 ^ 50 ->
  let mu := (inject_Z S / inject_Z (Z.of_nat n))%Q in
  (Qabs (to_Q a - mu) <= mu * (3 * inject_Z (Z.of_nat n) * pow2 (-52)))%Q.
Proof.
  intros (Na & A1 & A5 & HS & Lo & Hi) Hn Hb mu.
  destruct u_bounds as [U0 U1].
  set (k := inject_Z (Z.of_nat n)) in *.
  assert (K1 : (1 <= k)%Q) by (apply inject_Z_ge_1; lia).
  assert (K2 : (k <= pow2 50)%Q).
  { unfold k. rewrite (pow2_inject 50) by lia. now rewrite <- Zle_Qle. }
  assert (I0 : (0 <= inject_Z S)%Q) by (rewrite <- (Zle_Qle 0); lia).
  assert (E52 : (pow2 (-52) == 2 * u)%Q).
  { unfold u. replace (-52) with (-53 + 1) by lia. apply pow2_succ. }
  assert (E50 : (pow2 50 * u == 1 # 8)%Q).
  { unfold u. rewrite <- pow2_add. reflexivity. }
  assert (KU : (k * u <= 1 # 8)%Q).
  { rewrite <- E50. apply Qmult_le_compat_r; lra. }
  assert (K3 : (inject_Z (Z.of_nat (3 * n)) == 3 * k)%Q).
  { unfold k. rewrite Nat2Z.inj_mul, inject_Z_mult. reflexivity. }
  pose proof (qpow_upper_linear u (3 * n) ltac:(lra)) as PU.
  pose proof (qpow_lower_linear u (3 * n) ltac:(lra) ltac:(lra)) as PL.
  rewrite K3 in PU, PL. specialize (PU ltac:(lra)).
  set (s0 := inject_Z S) in *.
  assert (B1 : (s0 * (1 - 3 * k * u) <= s0 * qpow (1 - u) (3 * n))%Q)
    by (apply Qmult_le_l'; lra).
  assert (B2 : (s0 * qpow (1 + u) (3 * n) <= s0 * (1 + 2 * (3 * k) * u))%Q)
    by (apply Qmult_le_l'; lra).
  assert (Emu : (mu * k == s0)%Q) by (unfold mu; field; lra).
  assert (M0 : (0 <= mu)%Q).
  { unfold mu. apply Qle_shift_div_l; lra. }
  rewrite E52.
  set (A := to_Q a) in *. clearbody A mu s0 k.
  set (d := (mu * (3 * k * (2 * u)))%Q).
  assert (D : (d * k == s0 * (2 * (3 * k) * u))%Q)
    by (unfold d; rewrite <- Emu; ring).
  assert (G1 : ((A - mu) * k <= d * k)%Q).
  { rewrite D.
    setoid_replace ((A - mu) * k)%Q with (k * A - s0)%Q
      by (rewrite <- Emu; ring).
    setoid_replace (s0 * (2 * (3 * k) * u))%Q
      with (s0 * (1 + 2 * (3 * k) * u) - s0)%Q by ring.
    lra. }
  assert (G2 : ((- d) * k <= (A - mu) * k)%Q).
  { setoid_replace (- d * k)%Q with (- (d * k))%Q by ring. rewrite D.
    setoid_replace ((A - mu) * k)%Q with (k * A - s0)%Q
      by (rewrite <- Emu; ring).
    setoid_replace (- (s0 * (2 * (3 * k) * u)))%Q
      with (s0 * (1 - 2 * (3 * k) * u) - s0)%Q by ring.
    assert (s0 * (1 - 2 * (3 * k) * u) <= s0 * (1 - 3 * k * u))%Q.
    { apply Qmult_le_l'; [lra|].
      assert (0 <= k * u)%Q by (apply Qmult_le_0_compat; lra). lra. }
    lra. }
  apply Qabs_case; intros _.
  - apply Qmult_le_r with k; [lra|exact G1].
  - apply Qmult_le_r with k; [lra|].
    setoid_replace (- (A - mu) * k)%Q with (- ((A - mu) * k))%Q by ring.
    setoid_replace (- d * k)%Q with (- (d * k))%Q in G2 by ring.
    lra.
Qed.

Local Open Scope string_scope.
Local Open Scope list_scope.

(** ** Facts on masks and assignments *)

Lemma loc_values_name_mask {A : Type} (col : Toilet -> A) key d :
  loc_values (name_mask d key) col d
  = map col (filter (fun r => String.eqb (name r) key) d).
Proof.
  unfold name_mask.
  induction d as [|r d IH]; simpl; [reflexivity|].
  destruct (String.eqb (name r) key); simpl; now rewrite IH.
Qed.

Lemma filter_head_find {A : Type} (p : A -> bool) (l : list A) :
  hd_error (filter p l) = find p l.
Proof.
  induction l as [|a l IH]; simpl; [reflexivity|].
  destruct (p a); simpl; auto.
Qed.

Lemma loc_assign_name_mask set (g : Toilet -> Toilet) key d :
  loc_assign (name_mask d key) set (map g d)
  = map (fun r => if String.eqb (name r) key then set (g r) else g r) d.
Proof.
  unfold name_mask.
  induction d as [|r d IH]; simpl; [reflexivity|].
  now rewrite IH.
Qed.

Lemma submit_rating_unfold {csv : Type} (to_csv : DataFrame -> csv)
      today key rating (s : state csv) :
  submit_rating to_csv today key rating s
  = match first_named key (df s) with
    | None => Raise IndexError
    | Some r0 =>
        let new_avg := new_average (avg_rating r0) (num_ratings r0) rating in
        let new_count := Int64.add (num_ratings r0) 1 in
        let d' := map (rated today key new_avg new_count) (df s) in
        Ok (mkState d' (Some (to_csv d'))
              (shown s ++ [RatingThanks new_avg new_count]))
    end.
Proof.
  unfold submit_rating, first_named.
  rewrite !loc_values_name_mask.
  rewrite <- filter_head_find.
  destruct (filter _ (df s)) as [|r0 rest]; simpl; [reflexivity|].
  set (na := new_average _ _ _). set (nc := Int64.add _ _).
  assert (E : loc_assign (name_mask (df s) key) (set_last_updated today)
                (loc_assign (name_mask (df s) key) (set_num_ratings nc)
                   (loc_assign (name_mask (df s) key) (set_avg_rating na)
                      (df s)))
              = map (rated today key na nc) (df s)).
  { pose proof (loc_assign_name_mask (set_avg_rating na) (fun r => r)
                  key (df s)) as H1.
    rewrite map_id in H1. rewrite H1.
    rewrite !loc_assign_name_mask.
    apply map_ext. intros r. unfold rated.
    destruct (String.eqb (name r) key); reflexivity. }
  rewrite E. reflexivity.
Qed.

Lemma name_rated today key a c r : name (rated today key a c r) = name r.
Proof. unfold rated. destruct (String.eqb (name r) key); reflexivity. Qed.

Lemma first_named_rated today key a c d :
  first_named key (map (rated today key a c) d)
  = option_map (rated today key a c) (first_named key d).
Proof.
  unfold first_named.
  induction d as [|r d IH]; simpl; [reflexivity|].
  rewrite name_rated.
  destruct (String.eqb (name r) key); simpl; auto.
Qed.

Lemma first_named_name key d r :
  first_named key d = Some r -> name r = key.
Proof.
  unfold first_named. intros H. apply find_some in H.
  now apply String.eqb_eq.
Qed.


(** ** The rating submission *)

(** C1.  A submission against a table whose first row named [key] holds
    [old_avg] and [old_count] succeeds and leaves that row with the
    average [(old_avg * old_count + stars) / (old_count + 1)] (the
    script's expression, in float64 and int64 arithmetic), the count
    [old_count + 1] and the date of the submission; the count is the
    mathematical successor as long as it fits 64 bits.  On the seed
    table, rating "Flinders Street Station Toilets" with 5 gives the
    average [(3.5 * 12 + 5) / 13], the double nearest to 47/13, and the
    count 13. *)
Theorem C1_submit_rating_update :
  (forall (csv : Type) (to_csv : DataFrame -> csv) today key stars
          (s : state csv) r0,
      first_named key (df s) = Some r0 ->
      let old_avg := avg_rating r0 in
      let old_count := num_ratings r0 in
      exists s',
        submit_rating to_csv today key stars s = Ok s' /\
        first_named key (df s')
        = Some (mkToilet (name r0) (address r0) (latitude r0) (longitude r0)
                  (F64.div
                     (F64.add (F64.mul old_avg (F64.of_int old_count))
                              (F64.of_int stars))
                     (F64.of_int (Int64.add old_count 1)))
                  (Int64.add old_count 1)
                  today) /\
        (Int64.in_range (old_count + 1) ->
         Int64.add old_count 1 = old_count + 1)) /\
  (forall (csv : Type) (to_csv : DataFrame -> csv) today loaded f msgs,
      exists s',
        submit_rating to_csv today "Flinders Street Station Toilets" 5
                      (mkState (sample_data loaded) f msgs) = Ok s' /\
        first_named "Flinders Street Station Toilets" (df s')
        = Some (mkToilet "Flinders Street Station Toilets"
                  "Flinders St, Melbourne VIC 3000"
                  (F64.decimal (-378183) 10000) (F64.decimal 1449671 10000)
                  (F64.div
                     (F64.add (F64.mul (F64.decimal 35 10) (F64.of_int 12))
                              (F64.of_int 5))
                     (F64.of_int 13))
                  13 today) /\
        F64.div (F64.add (F64.mul (F64.decimal 35 10) (F64.of_int 12))
                         (F64.of_int 5))
                (F64.of_int 13)
        = F64.decimal 47 13 /\
        (Qabs (F64.to_Q (F64.decimal 47 13) - (47 # 13))
         <= (47 # 13) * F64.pow2 (-53))%Q).
Proof.
  split.
  - intros csv to_csv today key stars s r0 H old_avg old_count.
    rewrite submit_rating_unfold, H. cbv zeta.
    eexists. split; [reflexivity|]. simpl df.
    split.
    + rewrite first_named_rated, H. simpl. unfold rated.
      rewrite (first_named_name _ _ _ H), String.eqb_refl. reflexivity.
    + apply int64_add_exact.
  - intros csv to_csv today loaded f msgs.
    rewrite submit_rating_unfold. simpl.
    eexists. split; [reflexivity|].
    split; [reflexivity|].
    split; [vm_compute; reflexivity|].
    vm_compute. intros H; discriminate H.
Qed.

Lemma C1_submit_rating_update_witness :
  exists s',
    submit_rating (fun d : DataFrame => d) "2025-06-09"
                  "State Library Toilets" 4
                  (mkState (sample_data "2025-06-01") None []) = Ok s' /\
    option_map num_ratings (first_named "State Library Toilets" (df s'))
    = Some 8.
Proof.
  destruct (proj1 C1_submit_rating_update DataFrame (fun d => d)
              "2025-06-09" "State Library Toilets" 4
              (mkState (sample_data "2025-06-01") None [])
              (mkToilet "State Library Toilets"
                 "328 Swanston St, Melbourne VIC 3000"
                 (F64.decimal (-378097) 10000) (F64.decimal 1449651 10000)
                 (F64.decimal 41 10) 7 "2025-06-01")
              eq_refl) as [s' [H1 [H2 _]]].
  exists s'. split; [exact H1|]. rewrite H2. reflexivity.
Defined.

(** C3.  When the selected row has count 0 (and holds a finite average,
    as every row the script creates does), a submission of [stars] in
    1..5 stores exactly the double [stars]: the products and the sum lose
    nothing, and neither does the division by 1. *)
Theorem C3_first_rating_is_exact :
  forall (csv : Type) (to_csv : DataFrame -> csv) today key stars
         (s : state csv) r0,
    first_named key (df s) = Some r0 ->
    num_ratings r0 = 0 ->
    F64.is_finite (avg_rating r0) = true ->
    1 <= stars <= 5 ->
    exists s' r',
      submit_rating to_csv today key stars s = Ok s' /\
      first_named key (df s') = Some r' /\
      avg_rating r' = F64.of_int stars /\
      (F64.to_Q (avg_rating r') == inject_Z stars)%Q /\
      num_ratings r' = 1.
Proof.
  intros csv to_csv today key stars s r0 H Hc Hf Hs.
  rewrite submit_rating_unfold, H. cbv zeta.
  eexists. eexists. split; [reflexivity|]. simpl df.
  rewrite first_named_rated, H. simpl.
  split; [reflexivity|].
  unfold rated. rewrite (first_named_name _ _ _ H), String.eqb_refl.
  simpl. rewrite Hc.
  assert (E : new_average (avg_rating r0) 0 stars = F64.of_int stars)
    by (now apply new_average_first).
  rewrite E. split; [reflexivity|]. split; [|reflexivity].
  assert (C : stars = 1 \/ stars = 2 \/ stars = 3 \/ stars = 4 \/ stars = 5)
    by lia.
  destruct C as [-> | [-> | [-> | [-> | ->]]]]; vm_compute; reflexivity.
Qed.

Lemma C3_first_rating_is_exact_witness :
  exists s' r',
    submit_rating (fun d : DataFrame => d) "2025-06-09" "Test Toilet" 4
      (mkState [mkToilet "Test Toilet" "1 Test St" (F64.decimal (-3781) 100)
                  (F64.decimal 14496 100) F64.zero 0 "2025-06-01"]
               None []) = Ok s' /\
    first_named "Test Toilet" (df s') = Some r' /\
    avg_rating r' = F64.of_int 4 /\
    (F64.to_Q (avg_rating r') == inject_Z 4)%Q /\
    num_ratings r' = 1.
Proof.
  apply (C3_first_rating_is_exact DataFrame (fun d => d) "2025-06-09"
           "Test Toilet" 4
           (mkState [mkToilet "Test Toilet" "1 Test St"
                       (F64.decimal (-3781) 100) (F64.decimal 14496 100)
                       F64.zero 0 "2025-06-01"] None [])
           (mkToilet "Test Toilet" "1 Test St" (F64.decimal (-3781) 100)
              (F64.decimal 14496 100) F64.zero 0 "2025-06-01")).
  - reflexivity.
  - reflexivity.
  - reflexivity.
  - lia.
Defined.

(** C10.  A submission keeps the number and the order of the rows, and
    the name, address, latitude and longitude of every row; a row whose
    name differs from the selected one is untouched; every row with the
    selected name receives the date of the submission and one and the
    same average and count, computed from the first such row. *)
Theorem C10_submit_rating_frame :
  forall (csv : Type) (to_csv : DataFrame -> csv) today key stars
         (s s' : state csv),
    submit_rating to_csv today key stars s = Ok s' ->
    List.length (df s') = List.length (df s) /\
    (forall i r, nth_error (df s) i = Some r ->
       exists r', nth_error (df s') i = Some r' /\
         name r' = name r /\ address r' = address r /\
         latitude r' = latitude r /\ longitude r' = longitude r /\
         (name r <> key -> r' = r)) /\
    (exists r0,
       first_named key (df s) = Some r0 /\
       forall i r, nth_error (df s) i = Some r -> name r = key ->
         exists r', nth_error (df s') i = Some r' /\
           avg_rating r'
           = new_average (avg_rating r0) (num_ratings r0) stars /\
           num_ratings r' = Int64.add (num_ratings r0) 1 /\
           last_updated r' = today).
Proof.
  intros csv to_csv today key stars s s' H.
  rewrite submit_rating_unfold in H.
  destruct (first_named key (df s)) as [r0|] eqn:F; [|discriminate H].
  cbv zeta in H. injection H as <-. simpl df.
  split; [apply List.length_map|].
  split.
  - intros i r Hi. eexists. split.
    + rewrite nth_error_map, Hi. reflexivity.
    + unfold rated.
      destruct (String.eqb (name r) key) eqn:E; simpl;
        repeat split; auto.
      intros N. apply String.eqb_eq in E. contradiction.
  - exists r0. split; [reflexivity|].
    intros i r Hi Hn. eexists. split.
    + rewrite nth_error_map, Hi. reflexivity.
    + unfold rated. rewrite Hn, String.eqb_refl. simpl. auto.
Qed.

Lemma C10_submit_rating_frame_witness :
  List.length (map (rated "2025-06-09" "Federation Square Toilets"
                 (new_average (F64.decimal 42 10) 15 2) 16)
              (sample_data "2025-06-01"))
  = List.length (sample_data "2025-06-01").
Proof.
  refine (proj1 (C10_submit_rating_frame DataFrame (fun d => d) "2025-06-09"
                   "Federation Square Toilets" 2
                   (mkState (sample_data "2025-06-01") None [])
                   (mkState _ _ _) _)).
  vm_compute. reflexivity.
Defined.

(** ** Loading *)

(** C5.  Whatever exception the read raises (the file is missing, or
    pandas rejects its contents), [load_toilet_data] returns the sample
    table stamped with the date of the call, and it returns a table in
    every case.  Behind the cache the same holds: on a failed read the
    first call returns the sample table and stores it, and a call always
    returns the table the cache then holds.  The sample table is the
    source's seven columns of five entries: the five names, their
    addresses, the hardcoded latitudes and longitudes, averages and
    counts, and the date of the call five times; every number is the
    double that the decimal literal of the source reads as (given with
    its sign, mantissa and exponent, and shown to lie within half a unit
    in the last place of the decimal). *)
Theorem C5_load_falls_back_to_sample_data :
  (forall (csv : Type) (read_csv : csv -> outcome DataFrame)
          (d : disk csv) today e,
      read_file read_csv d = Raise e ->
      load_toilet_data read_csv d today = Ok (sample_data today)) /\
  (forall (csv : Type) (read_csv : csv -> outcome DataFrame) today,
      load_toilet_data read_csv None today = Ok (sample_data today)) /\
  (forall (csv : Type) (read_csv : csv -> outcome DataFrame)
          (d : disk csv) today,
      exists t, load_toilet_data read_csv d today = Ok t) /\
  (forall (csv : Type) (read_csv : csv -> outcome DataFrame)
          (d : disk csv) today e,
      read_file read_csv d = Raise e ->
      cached_load_toilet_data read_csv None d today
      = Ok (sample_data today, Some (sample_data today))) /\
  (forall (csv : Type) (read_csv : csv -> outcome DataFrame) cache
          (d : disk csv) today,
      exists t,
        cached_load_toilet_data read_csv cache d today = Ok (t, Some t) /\
        (cache = None -> load_toilet_data read_csv d today = Ok t) /\
        (forall t0, cache = Some t0 -> t = t0)) /\
  (forall today,
      List.length (sample_data today) = 5%nat /\
      map name (sample_data today)
      = [ "Flinders Street Station Toilets"; "Queen Victoria Market Toilets";
          "Federation Square Toilets"; "Melbourne Central Toilets";
          "State Library Toilets" ] /\
      map address (sample_data today)
      = [ "Flinders St, Melbourne VIC 3000"; "Queen St, Melbourne VIC 3000";
          "Swanston St & Flinders St, Melbourne VIC 3000";
          "211 La Trobe St, Melbourne VIC 3000";
          "328 Swanston St, Melbourne VIC 3000" ] /\
      map latitude (sample_data today)
      = [ F64.decimal (-378183) 10000; F64.decimal (-378076) 10000;
          F64.decimal (-378180) 10000; F64.decimal (-378106) 10000;
          F64.decimal (-378097) 10000 ] /\
      map longitude (sample_data today)
      = [ F64.decimal 1449671 10000; F64.decimal 1449580 10000;
          F64.decimal 1449674 10000; F64.decimal 1449628 10000;
          F64.decimal 1449651 10000 ] /\
      map avg_rating (sample_data today)
      = [ F64.decimal 35 10; F64.decimal 40 10; F64.decimal 42 10;
          F64.decimal 38 10; F64.decimal 41 10 ] /\
      map num_ratings (sample_data today) = [12; 8; 15; 10; 7] /\
      map last_updated (sample_data today) = repeat today 5 /\
      map latitude (sample_data today)
      = [ S754_finite true 5322452555868301 (-47);
          S754_finite true 5320946664742899 (-47);
          S754_finite true 5322410334621794 (-47);
          S754_finite true 5321368877207965 (-47);
          S754_finite true 5321242213468445 (-47) ] /\
      map longitude (sample_data today)
      = [ S754_finite false 5100576387038917 (-45);
          S754_finite false 5100256209252909 (-45);
          S754_finite false 5100586942350544 (-45);
          S754_finite false 5100425094238935 (-45);
          S754_finite false 5100506018294740 (-45) ] /\
      map avg_rating (sample_data today)
      = [ S754_finite false 7881299347898368 (-51);
          S754_finite false 4503599627370496 (-50);
          S754_finite false 4728779608739021 (-50);
          S754_finite false 8556839292003942 (-51);
          S754_finite false 4616189618054758 (-50) ] /\
      Forall2 reads_as
        [ (-378183 # 10000)%Q; (-378076 # 10000)%Q; (-378180 # 10000)%Q;
          (-378106 # 10000)%Q; (-378097 # 10000)%Q ]
        (map latitude (sample_data today)) /\
      Forall2 reads_as
        [ (1449671 # 10000)%Q; (1449580 # 10000)%Q; (1449674 # 10000)%Q;
          (1449628 # 10000)%Q; (1449651 # 10000)%Q ]
        (map longitude (sample_data today)) /\
      Forall2 reads_as
        [ (35 # 10)%Q; (40 # 10)%Q; (42 # 10)%Q; (38 # 10)%Q; (41 # 10)%Q ]
        (map avg_rating (sample_data today))).
Proof.
  split; [|split; [|split; [|split; [|split]]]].
  - intros csv read_csv d today e H. unfold load_toilet_data.
    now rewrite H.
  - reflexivity.
  - intros csv read_csv d today. unfold load_toilet_data.
    destruct (read_file read_csv d); eexists; reflexivity.
  - intros csv read_csv d today e H.
    unfold cached_load_toilet_data, load_toilet_data. now rewrite H.
  - intros csv read_csv cache d today. unfold cached_load_toilet_data.
    destruct cache as [t0|].
    + exists t0. split; [reflexivity|]. split; [discriminate|].
      intros t1 E. now injection E.
    + unfold load_toilet_data.
      destruct (read_file read_csv d) as [t|e]; eexists;
        (split; [reflexivity|]); (split; [reflexivity|discriminate]).
  - intros today.
    do 8 (split; [reflexivity|]).
    do 3 (split; [vm_compute; reflexivity|]).
    split; [|split]; simpl map;
      repeat (constructor;
              [split; [reflexivity|]; split; [reflexivity|];
               unfold Qle; vm_compute; discriminate|]);
      constructor.
Qed.

Lemma C5_load_falls_back_to_sample_data_witness :
  load_toilet_data (fun d : DataFrame => Ok d) None "2025-06-09"
  = Ok (sample_data "2025-06-09").
Proof.
  apply (proj1 C5_load_falls_back_to_sample_data DataFrame
           (fun d => Ok d) None "2025-06-09" FileNotFoundError).
  reflexivity.
Defined.

(** ** Adding a toilet *)

(** C6.  When the name or the address is empty the handler shows the
    validation error and changes nothing: the table in memory (hence its
    number of rows) and the file are the ones it was given. *)
Theorem C6_add_toilet_rejects_empty :
  forall (csv : Type) (to_csv : DataFrame -> csv) today new_name new_address
         lat lon (s : state csv),
    new_name = "" \/ new_address = "" ->
    let s' := add_toilet to_csv today new_name new_address lat lon s in
    df s' = df s /\
    List.length (df s') = List.length (df s) /\
    file s' = file s /\
    shown s' = shown s ++ [MissingNameOrAddress].
Proof.
  intros csv to_csv today new_name new_address lat lon s H s'.
  subst s'. unfold add_toilet.
  assert (E : truthy new_name && truthy new_address = false).
  { destruct H as [-> | ->]; unfold truthy; simpl;
      [reflexivity | apply andb_false_r]. }
  rewrite E. simpl. auto.
Qed.

Lemma C6_add_toilet_rejects_empty_witness :
  df (add_toilet (fun d : DataFrame => d) "2025-06-09" "" "1 Test St"
        (F64.decimal (-3781) 100) (F64.decimal 14496 100)
        (mkState (sample_data "2025-06-01") None []))
  = sample_data "2025-06-01".
Proof.
  apply (C6_add_toilet_rejects_empty DataFrame (fun d => d) "2025-06-09"
           "" "1 Test St" (F64.decimal (-3781) 100) (F64.decimal 14496 100)
           (mkState (sample_data "2025-06-01") None [])).
  left. reflexivity.
Defined.

(** C7.  With a name and an address that are not empty, and whatever the
    coordinates, the handler appends one row made of exactly these four
    values, the average 0.0, the count 0 and the date; the row sits at
    the end of the table, which is also what is written to the file, and
    a lookup by its name finds it when no earlier row has that name. *)
Theorem C7_add_toilet_appends :
  forall (csv : Type) (to_csv : DataFrame -> csv) today new_name new_address
         lat lon (s : state csv),
    new_name <> "" -> new_address <> "" ->
    let s' := add_toilet to_csv today new_name new_address lat lon s in
    let row := mkToilet new_name new_address lat lon F64.zero 0 today in
    df s' = df s ++ [row] /\
    nth_error (df s') (List.length (df s)) = Some row /\
    In row (df s') /\
    (F64.to_Q (avg_rating row) == 0)%Q /\
    num_ratings row = 0 /\
    file s' = Some (to_csv (df s ++ [row])) /\
    shown s' = shown s ++ [ToiletAdded] /\
    (first_named new_name (df s) = None ->
     first_named new_name (df s') = Some row).
Proof.
  intros csv to_csv today new_name new_address lat lon s Hn Ha s' row.
  subst s' row. unfold add_toilet.
  assert (E : truthy new_name && truthy new_address = true).
  { unfold truthy. apply andb_true_iff.
    split; apply negb_true_iff, String.eqb_neq; assumption. }
  rewrite E. simpl. unfold concat.
  change (F64.of_int 0) with F64.zero.
  repeat split.
  - rewrite nth_error_app2 by lia. now rewrite Nat.sub_diag.
  - apply in_or_app. right. left. reflexivity.
  - unfold first_named. intros H.
    induction (df s) as [|r d IH]; simpl in *.
    + now rewrite String.eqb_refl.
    + destruct (String.eqb (name r) new_name); [discriminate H|auto].
Qed.

Lemma C7_add_toilet_appends_witness :
  nth_error
    (df (add_toilet (fun d : DataFrame => d) "2025-06-09" "Test Toilet"
           "1 Test St" (F64.decimal (-3781) 100) (F64.decimal 14496 100)
           (mkState (sample_data "2025-06-01") None [])))
    5
  = Some (mkToilet "Test Toilet" "1 Test St" (F64.decimal (-3781) 100)
            (F64.decimal 14496 100) F64.zero 0 "2025-06-09").
Proof.
  refine (proj1 (proj2 (C7_add_toilet_appends DataFrame (fun d => d)
            "2025-06-09" "Test Toilet" "1 Test St"
            (F64.decimal (-3781) 100) (F64.decimal 14496 100)
            (mkState (sample_data "2025-06-01") None []) _ _)));
    intros H; discriminate H.
Defined.


(** ** Sequences of submissions *)

Lemma submit_ratings_running_mean {csv : Type} (to_csv : DataFrame -> csv)
      today key ratings :
  forall (s : state csv) r0 n S,
    first_named key (df s) = Some r0 ->
    num_ratings r0 = Z.of_nat n ->
    running_mean_inv n S (avg_rating r0) ->
    (1 <= n)%nat ->
    Forall (fun x => 1 <= x <= 5) ratings ->
    Z.of_nat n + Z.of_nat (List.length ratings) <= 2 ^ 50 ->
    exists s' r',
      submit_ratings to_csv today key ratings s = Ok s' /\
      first_named key (df s') = Some r' /\
      num_ratings r' = Z.of_nat (n + List.length ratings) /\
      running_mean_inv (n + List.length ratings) (S + total ratings)
                       (avg_rating r').
Proof.
  induction ratings as [|x rest IH]; intros s r0 n S F C I Hn R B.
  - exists s, r0. simpl. rewrite Nat.add_0_r, Z.add_0_r. auto.
  - inversion R as [|? ? Hx R']; subst.
    simpl List.length in *. rewrite Nat2Z.inj_succ in B.
    simpl submit_ratings. rewrite submit_rating_unfold, F. cbv zeta.
    set (s1 := mkState _ _ _).
    assert (F1 : first_named key (df s1)
                 = Some (rated today key
                           (new_average (avg_rating r0) (num_ratings r0) x)
                           (Int64.add (num_ratings r0) 1) r0)).
    { unfold s1. simpl df. now rewrite first_named_rated, F. }
    unfold rated in F1.
    rewrite (first_named_name _ _ _ F), String.eqb_refl in F1.
    rewrite C in F1.
    rewrite int64_add_exact in F1 by in_int64.
    destruct (IH s1 _ (Datatypes.S n) (S + x) F1) as (s' & r' & E & F' & C' & I').
    + simpl num_ratings. lia.
    + simpl avg_rating. apply running_mean_step; [exact I|exact Hn|lia|exact Hx].
    + lia.
    + exact R'.
    + lia.
    + exists s', r'. split; [exact E|]. split; [exact F'|].
      replace (n + Datatypes.S (List.length rest))%nat
        with (Datatypes.S n + List.length rest)%nat by lia.
      simpl total. rewrite Z.add_assoc. auto.
Qed.

(** C2, as the script has it.  The claim fails on a row that already
    carries ratings: the seed row "Flinders Street Station Toilets"
    starts at 3.5 from 12 ratings, so one submission of 5 leaves a count
    of 13 and an average near 3.6, not 1 and 5. *)
Lemma C2_counterexample :
  exists s' r',
    submit_ratings (fun d : DataFrame => d) "2025-06-09"
      "Flinders Street Station Toilets" [5]
      (mkState (sample_data "2025-06-09") None []) = Ok s' /\
    first_named "Flinders Street Station Toilets" (df s') = Some r' /\
    num_ratings r' = 13 /\
    num_ratings r' <> Z.of_nat (List.length [5]) /\
    (1 < Qabs (F64.to_Q (avg_rating r') - mean [5%Z]))%Q.
Proof.
  eexists. eexists.
  split; [vm_compute; reflexivity|].
  split; [vm_compute; reflexivity|].
  split; [reflexivity|].
  split; [intros H; discriminate H|].
  vm_compute. reflexivity.
Qed.

(** C2, amended.  For a row that starts with count 0 (and a finite
    average), submissions [s1 .. sN] with stars in 1..5, each one applied
    to the table the previous one left, and [N <= 2^50]: the count is [N],
    and for [N >= 1] the average differs from the arithmetic mean of the
    stars by at most [3 * N * 2^-52] times that mean. *)
Theorem C2_fresh_row_running_mean :
  forall (csv : Type) (to_csv : DataFrame -> csv) today key
         (ratings : list Z) (s : state csv) r0,
    first_named key (df s) = Some r0 ->
    num_ratings r0 = 0 ->
    F64.is_finite (avg_rating r0) = true ->
    Forall (fun x => 1 <= x <= 5) ratings ->
    Z.of_nat (List.length ratings) <= 2 ^ 50 ->
    exists s' r',
      submit_ratings to_csv today key ratings s = Ok s' /\
      first_named key (df s') = Some r' /\
      num_ratings r' = Z.of_nat (List.length ratings) /\
      (ratings <> [] ->
       (Qabs (F64.to_Q (avg_rating r') - mean ratings)
        <= mean ratings
           * (3 * inject_Z (Z.of_nat (List.length ratings))
              * F64.pow2 (-52)))%Q).
Proof.
  intros csv to_csv today key ratings s r0 F C Hf R B.
  destruct ratings as [|x rest].
  - exists s, r0. simpl. repeat split; auto. intros N. now elim N.
  - inversion R as [|? ? Hx R']; subst.
    simpl List.length in *. rewrite Nat2Z.inj_succ in B.
    simpl submit_ratings. rewrite submit_rating_unfold, F. cbv zeta.
    set (s1 := mkState _ _ _).
    assert (F1 : first_named key (df s1)
                 = Some (rated today key
                           (new_average (avg_rating r0) (num_ratings r0) x)
                           (Int64.add (num_ratings r0) 1) r0)).
    { unfold s1. simpl df. now rewrite first_named_rated, F. }
    unfold rated in F1.
    rewrite (first_named_name _ _ _ F), String.eqb_refl in F1.
    rewrite C in F1. change (Int64.add 0 1) with 1 in F1.
    destruct (submit_ratings_running_mean to_csv today key rest s1 _ 1%nat x F1)
      as (s' & r' & E & F' & C' & I').
    + reflexivity.
    + simpl avg_rating. now apply running_mean_first.
    + lia.
    + exact R'.
    + lia.
    + exists s', r'. split; [exact E|]. split; [exact F'|].
      split; [exact C'|]. intros _.
      change (Datatypes.S (List.length rest)) with (1 + List.length rest)%nat.
      apply (running_mean_tolerance _ _ _ I'); lia.
Qed.

Lemma C2_fresh_row_running_mean_witness :
  exists s' r',
    submit_ratings (fun d : DataFrame => d) "2025-06-09" "Test Toilet"
      [5; 3; 4]
      (mkState [mkToilet "Test Toilet" "1 Test St" (F64.decimal (-3781) 100)
                  (F64.decimal 14496 100) F64.zero 0 "2025-06-01"]
               None []) = Ok s' /\
    first_named "Test Toilet" (df s') = Some r' /\
    num_ratings r' = 3.
Proof.
  destruct (C2_fresh_row_running_mean DataFrame (fun d => d) "2025-06-09"
              "Test Toilet" [5; 3; 4]
              (mkState [mkToilet "Test Toilet" "1 Test St"
                          (F64.decimal (-3781) 100) (F64.decimal 14496 100)
                          F64.zero 0 "2025-06-01"] None [])
              (mkToilet "Test Toilet" "1 Test St" (F64.decimal (-3781) 100)
                 (F64.decimal 14496 100) F64.zero 0 "2025-06-01"))
    as (s' & r' & E & F & C & _).
  - reflexivity.
  - reflexivity.
  - reflexivity.
  - repeat constructor; lia.
  - simpl. lia.
  - exists s', r'. auto.
Defined.

(** ** The range conditions *)

Lemma in_range_nn a :
  rating_in_range a -> Rounding.nn a /\ (F64.to_Q a <= 5)%Q.
Proof.
  intros (V & Fi & L0 & L5). split; [|exact L5]. split; [exact V|].
  destruct a as [sz|si| |sf m e]; try discriminate Fi.
  - left. eexists. reflexivity.
  - right. destruct sf; [exfalso|do 2 eexists; reflexivity].
    simpl in L0.
    assert (0 < inject_Z (Zpos m) * F64.pow2 e)%Q.
    { apply Qmult_lt_0_compat; [|apply pow2_pos].
      rewrite <- (Zlt_Qlt 0). lia. }
    change (inject_Z (Zneg m)) with (- inject_Z (Zpos m))%Q in L0.
    lra.
Qed.

Lemma nn_in_range a :
  Rounding.nn a -> (F64.to_Q a <= 5)%Q -> rating_in_range a.
Proof.
  intros N L5. pose proof (nn_nonneg a N) as L0.
  destruct N as [V [[sz ->]|(m & e & ->)]]; repeat split; auto.
Qed.

(** C4, as the script has it.  A table within the ranges can leave them:
    with an average of 5.0 from 1801439850948198 ratings, the sum
    [5.0 * count + 5] is no longer an exact double, and a further rating
    of 5 stores an average above 5. *)
Lemma C4_counterexample :
  let s := mkState
             [mkToilet "Busy Toilet" "1 Test St" (F64.decimal (-3781) 100)
                (F64.decimal 14496 100) (F64.of_int 5) 1801439850948198
                "2025-06-01"]
             None [] in
  ratings_ok (df s) /\
  exists s',
    submit_rating (fun d : DataFrame => d) "2025-06-09" "Busy Toilet" 5 s
    = Ok s' /\
    map avg_rating (df s') = [S754_finite false 5629499534213121 (-50)] /\
    (5 < F64.to_Q (S754_finite false 5629499534213121 (-50)))%Q /\
    ~ ratings_ok (df s').
Proof.
  cbv zeta. split.
  - constructor; [|constructor]. split; [|simpl; lia].
    repeat split; vm_compute; intros H; discriminate H.
  - eexists. split; [vm_compute; reflexivity|].
    split; [reflexivity|]. split; [vm_compute; reflexivity|].
    intros H. inversion H as [|r d [(_ & _ & _ & H5) _] _]; subst.
    vm_compute in H5. apply H5. reflexivity.
Qed.

(** C4, amended.  The ranges hold of the seed table; a submission with
    stars in 1..5 keeps them when the selected row's count [n] has
    [5 * (n + 1) <= 2^53] (up to 1801439850948197 ratings); adding a
    toilet keeps them in every case. *)
Theorem C4_ranges_preserved :
  (forall today, ratings_ok (sample_data today)) /\
  (forall (csv : Type) (to_csv : DataFrame -> csv) today key stars
          (s s' : state csv),
      ratings_ok (df s) ->
      1 <= stars <= 5 ->
      (forall r0, first_named key (df s) = Some r0 ->
                  5 * (num_ratings r0 + 1) <= 2 ^ 53) ->
      submit_rating to_csv today key stars s = Ok s' ->
      ratings_ok (df s')) /\
  (forall (csv : Type) (to_csv : DataFrame -> csv) today new_name
          new_address lat lon (s : state csv),
      ratings_ok (df s) ->
      ratings_ok (df (add_toilet to_csv today new_name new_address lat lon
                        s))).
Proof.
  split; [|split].
  - intros today. unfold sample_data.
    repeat (constructor; [split; [|simpl; lia]|]); try constructor;
      repeat split; vm_compute; intros H; discriminate H.
  - intros csv to_csv today key stars s s' Hok Hs Hb H.
    rewrite submit_rating_unfold in H.
    destruct (first_named key (df s)) as [r0|] eqn:F; [|discriminate H].
    cbv zeta in H. injection H as <-. simpl df.
    specialize (Hb r0 eq_refl).
    assert (In0 : In r0 (df s)).
    { unfold first_named in F. now apply find_some in F. }
    unfold ratings_ok in *. rewrite Forall_forall in Hok.
    destruct (Hok r0 In0) as [R0 C0].
    destruct (in_range_nn _ R0) as [N0 L0].
    destruct (new_average_chain (avg_rating r0) (num_ratings r0) stars
                N0 L0 C0 Hb Hs)
      as (vP & vT & vA & _ & _ & _ & NA & EA & _ & _ & _ & BA).
    apply Forall_forall. intros r' Hr'.
    apply in_map_iff in Hr'. destruct Hr' as (r & <- & Hr).
    unfold rated. destruct (String.eqb (name r) key); [|now apply Hok].
    simpl. split.
    + apply nn_in_range; [exact NA|now rewrite EA].
    + rewrite int64_add_exact by in_int64. lia.
  - intros csv to_csv today new_name new_address lat lon s Hok.
    unfold add_toilet.
    destruct (truthy new_name && truthy new_address); simpl df;
      [|exact Hok].
    unfold concat, ratings_ok. apply Forall_app. split; [exact Hok|].
    constructor; [|constructor]. simpl. split; [|lia].
    repeat split; vm_compute; intros H; discriminate H.
Qed.

Lemma C4_ranges_preserved_witness :
  ratings_ok
    (map (rated "2025-06-09" "Queen Victoria Market Toilets"
            (new_average (F64.decimal 40 10) 8 5) 9)
         (sample_data "2025-06-01")).
Proof.
  refine (proj1 (proj2 C4_ranges_preserved) DataFrame (fun d => d)
            "2025-06-09" "Queen Victoria Market Toilets" 5
            (mkState (sample_data "2025-06-01") None [])
            (mkState _ _ _) _ _ _ _).
  - exact (proj1 C4_ranges_preserved "2025-06-01").
  - lia.
  - intros r0 H. vm_compute in H. injection H as <-. simpl. lia.
  - vm_compute. reflexivity.
Defined.

(** * Further properties of the script *)

(** ** When a submission raises *)

Lemma first_named_none key d :
  first_named key d = None <-> forall r, In r d -> name r <> key.
Proof.
  unfold first_named. split.
  - intros H r Hr E.
    pose proof (find_none _ _ H r Hr) as N. simpl in N.
    rewrite E, String.eqb_refl in N. discriminate N.
  - intros H. destruct (find _ d) as [r|] eqn:F; [|reflexivity].
    apply find_some in F. destruct F as [Hr E].
    apply String.eqb_eq in E. now elim (H r Hr).
Qed.

Lemma first_named_some key d :
  (exists r, first_named key d = Some r) <->
  (exists r, In r d /\ name r = key).
Proof.
  split.
  - intros [r H]. exists r. split.
    + unfold first_named in H. now apply find_some in H.
    + now apply first_named_name in H.
  - intros (r & Hr & E).
    destruct (first_named key d) as [r0|] eqn:F; [eauto|].
    rewrite first_named_none in F. now elim (F r Hr).
Qed.

(** X1.  A submission raises [IndexError] exactly when no row of the
    table has the selected name: the selection that [.values[0]] reads
    at lines 73 and 74 is then empty. *)
Theorem X1_index_error_iff_no_row_is_named :
  forall (csv : Type) (to_csv : DataFrame -> csv) today key stars
         (s : state csv),
    submit_rating to_csv today key stars s = Raise IndexError <->
    (forall r, In r (df s) -> name r <> key).
Proof.
  intros csv to_csv today key stars s.
  rewrite submit_rating_unfold, <- first_named_none.
  destruct (first_named key (df s)) as [r0|]; cbv zeta.
  - split; intros H; discriminate H.
  - split; reflexivity.
Qed.

(** ** The options of the select box *)

Lemma In_unique x names : In x (unique names) <-> In x names.
Proof.
  induction names as [|n rest IH]; simpl; [tauto|].
  rewrite filter_In, IH, negb_true_iff, String.eqb_neq.
  destruct (string_dec n x) as [->|N]; [tauto|].
  split; [tauto|]. intros [E|H]; [now elim N|].
  right. split; [exact H|congruence].
Qed.

Lemma NoDup_unique names : NoDup (unique names).
Proof.
  induction names as [|n rest IH]; simpl; constructor.
  - rewrite filter_In, String.eqb_refl. intros [_ H]. discriminate H.
  - now apply NoDup_filter.
Qed.

Lemma filter_filter {A : Type} (p q : A -> bool) (l : list A) :
  filter p (filter q l) = filter (fun x => p x && q x) l.
Proof.
  induction l as [|a l IH]; simpl; [reflexivity|].
  destruct (q a); simpl; [destruct (p a)|rewrite andb_false_r];
    now rewrite IH.
Qed.

(** The names of an extended column: those of the old one, then the new
    ones that the old column does not hold. *)
Lemma unique_app old new :
  unique (old ++ new)
  = unique old
    ++ filter (fun m => negb (existsb (String.eqb m) old)) (unique new).
Proof.
  induction old as [|n rest IH]; simpl.
  - symmetry. apply forallb_filter_id, forallb_forall. reflexivity.
  - f_equal. rewrite IH, filter_app, filter_filter. f_equal.
    apply filter_ext. intros m. now rewrite negb_orb.
Qed.

Lemma existsb_eqb_In n names :
  existsb (String.eqb n) names = true <-> In n names.
Proof.
  rewrite existsb_exists. split.
  - intros (x & Hx & E). apply String.eqb_eq in E. now subst.
  - intros H. exists n. split; [exact H|apply String.eqb_refl].
Qed.

Lemma map_name_rated today key a c d :
  map name (map (rated today key a c) d) = map name d.
Proof.
  rewrite map_map. apply map_ext. intros r. apply name_rated.
Qed.

Lemma unique_NoDup names : NoDup names -> unique names = names.
Proof.
  induction 1 as [|n rest N _ IH]; simpl; [reflexivity|].
  rewrite IH. f_equal. apply forallb_filter_id, forallb_forall.
  intros m Hm. apply negb_true_iff, String.eqb_neq. congruence.
Qed.

(** A name that the column does not hold yet comes last among the
    options of the extended column. *)
Lemma unique_snoc_new names n :
  ~ In n names -> unique (names ++ [n]) = unique names ++ [n].
Proof.
  intros H. rewrite unique_app. simpl.
  destruct (existsb (String.eqb n) names) eqn:E; [|reflexivity].
  apply existsb_eqb_In in E. contradiction.
Qed.

(** X2.  The options of the select box are the names of the table, each
    once: no option is repeated, every option is the name of a row and
    every row's name is an option; a table whose names are distinct
    offers its name column as it is; the option preselected is the name
    of the first row; and an empty table offers nothing to pick. *)
Theorem X2_options_of_the_select_box :
  forall d : DataFrame,
    let options := unique (map name d) in
    NoDup options /\
    (forall key, In key options <-> exists r, In r d /\ name r = key) /\
    (NoDup (map name d) -> options = map name d) /\
    selectbox options 0 = option_map name (hd_error d) /\
    (d = [] -> forall picked, selectbox options picked = None).
Proof.
  intros d options. split; [apply NoDup_unique|]. split; [|split; [|split]].
  - intros key. unfold options. rewrite In_unique, in_map_iff.
    split; intros (r & A & B); exists r; auto.
  - apply unique_NoDup.
  - unfold options. now destruct d.
  - intros -> picked. now destruct picked.
Qed.

Lemma X2_options_of_the_select_box_witness :
  unique (map name (sample_data "2025-06-09"))
  = [ "Flinders Street Station Toilets"; "Queen Victoria Market Toilets";
      "Federation Square Toilets"; "Melbourne Central Toilets";
      "State Library Toilets" ].
Proof.
  apply (proj1 (proj2 (proj2
           (X2_options_of_the_select_box (sample_data "2025-06-09"))))).
  simpl. repeat constructor; simpl; intuition discriminate.
Defined.

(** ** How submissions compose *)

(** X4.  For the chain [submit_ratings], in which each submission is
    applied to the table the previous one left (as when each run reads
    back the table the previous run wrote; the runs of one server
    process start from the cached table instead): whatever the row
    holds, [N] such submissions raise its count by exactly [N], as long
    as the result fits 64 bits; the table keeps its length, and the rows
    of another name stay as they are. *)
Theorem X4_counts_add_up :
  forall (csv : Type) (to_csv : DataFrame -> csv) today key
         (ratings : list Z) (s : state csv) r0,
    first_named key (df s) = Some r0 ->
    Int64.min_signed <= num_ratings r0 ->
    num_ratings r0 + Z.of_nat (List.length ratings) <= Int64.max_signed ->
    exists s' r',
      submit_ratings to_csv today key ratings s = Ok s' /\
      first_named key (df s') = Some r' /\
      num_ratings r' = num_ratings r0 + Z.of_nat (List.length ratings) /\
      List.length (df s') = List.length (df s) /\
      (forall i r, nth_error (df s) i = Some r -> name r <> key ->
                   nth_error (df s') i = Some r).
Proof.
  intros csv to_csv today key ratings.
  induction ratings as [|x rest IH]; intros s r0 F Lo Hi.
  - exists s, r0. simpl. rewrite Z.add_0_r. auto.
  - unfold Int64.min_signed, Int64.max_signed in *.
    simpl List.length in *. rewrite Nat2Z.inj_succ in *.
    simpl submit_ratings. rewrite submit_rating_unfold, F. cbv zeta.
    set (s1 := mkState _ _ _).
    assert (F1 : first_named key (df s1)
                 = Some (rated today key
                           (new_average (avg_rating r0) (num_ratings r0) x)
                           (Int64.add (num_ratings r0) 1) r0)).
    { unfold s1. simpl df. now rewrite first_named_rated, F. }
    unfold rated in F1.
    rewrite (first_named_name _ _ _ F), String.eqb_refl in F1.
    rewrite int64_add_exact in F1 by in_int64.
    destruct (IH s1 _ F1) as (s' & r' & E & F' & C' & L' & O');
      [simpl; lia|simpl; lia|].
    exists s', r'. split; [exact E|]. split; [exact F'|].
    split; [rewrite C'; simpl; lia|].
    split; [rewrite L'; unfold s1; simpl df; apply List.length_map|].
    intros i r Hi' N. apply O'; [|exact N].
    unfold s1. simpl df. rewrite nth_error_map, Hi'. simpl.
    unfold rated. now rewrite (proj2 (String.eqb_neq _ _) N).
Qed.

Lemma X4_counts_add_up_witness :
  exists s' r',
    submit_ratings (fun d : DataFrame => d) "2025-06-09"
      "Melbourne Central Toilets" [5; 1; 3]
      (mkState (sample_data "2025-06-01") None []) = Ok s' /\
    first_named "Melbourne Central Toilets" (df s') = Some r' /\
    num_ratings r' = 13.
Proof.
  destruct (X4_counts_add_up DataFrame (fun d => d) "2025-06-09"
              "Melbourne Central Toilets" [5; 1; 3]
              (mkState (sample_data "2025-06-01") None [])
              (mkToilet "Melbourne Central Toilets"
                 "211 La Trobe St, Melbourne VIC 3000"
                 (F64.decimal (-378106) 10000) (F64.decimal 1449628 10000)
                 (F64.decimal 38 10) 10 "2025-06-01"))
    as (s' & r' & E & F & C & _).
  - reflexivity.
  - unfold Int64.min_signed. simpl. lia.
  - unfold Int64.max_signed. simpl. lia.
  - exists s', r'. auto.
Defined.

Lemma rated_absent today key a c d :
  (forall r, In r d -> name r <> key) -> map (rated today key a c) d = d.
Proof.
  intros H. rewrite <- (map_id d) at 2. apply map_ext_in.
  intros r Hr. unfold rated.
  now rewrite (proj2 (String.eqb_neq _ _) (H r Hr)).
Qed.

Lemma truthy_both n a : n <> "" -> a <> "" -> truthy n && truthy a = true.
Proof.
  intros Hn Ha. unfold truthy. apply andb_true_iff.
  split; apply negb_true_iff, String.eqb_neq; assumption.
Qed.

Lemma add_toilet_accepted {csv : Type} (to_csv : DataFrame -> csv) today
      new_name new_address lat lon (s : state csv) :
  new_name <> "" -> new_address <> "" ->
  add_toilet to_csv today new_name new_address lat lon s
  = let t' := df s ++ [mkToilet new_name new_address lat lon F64.zero 0
                         today] in
    mkState t' (Some (to_csv t')) (shown s ++ [ToiletAdded]).
Proof.
  intros Hn Ha. unfold add_toilet. now rewrite truthy_both.
Qed.

Lemma first_named_snoc_new key d r :
  (forall r0, In r0 d -> name r0 <> key) -> name r = key ->
  first_named key (d ++ [r]) = Some r.
Proof.
  intros H E. unfold first_named. induction d as [|r0 d IH]; simpl.
  - now rewrite E, String.eqb_refl.
  - rewrite (proj2 (String.eqb_neq _ _) (H r0 (or_introl eq_refl))).
    apply IH. intros r1 H1. apply H. now right.
Qed.

(** ** One update of the running average *)

(** Rounding, with the error in the subnormal range accounted for. *)
Lemma RN_mixed x v :
  Rounding.RN x v -> (0 <= x)%Q ->
  (x * (1 - Rounding.u) - F64.pow2 (-1075) <= v /\
   v <= x * (1 + Rounding.u) + F64.pow2 (-1075))%Q.
Proof.
  intros (D & m & Hup & Hlow & Hm & Hv & Hlo & Hhi) Hx.
  rewrite fexp_eq in *. set (f := Z.max (D - 53) (-1074)) in *.
  destruct u_bounds as [U0 U1].
  assert (Hhalf : (F64.pow2 (f - 1)
                   <= x * Rounding.u + F64.pow2 (-1075))%Q).
  { assert (0 <= x * Rounding.u)%Q by (apply Qmult_le_0_compat; lra).
    pose proof (pow2_pos (-1075)).
    destruct (Z.eq_dec f (-1074)) as [E|N].
    - rewrite E. change (-1074 - 1) with (-1075). lra.
    - destruct Hlow as [Hlow|Hlow]; [|lia].
      assert (F64.pow2 (f - 1) <= x * Rounding.u)%Q; [|lra].
      replace (f - 1) with ((D - 1) + -53) by lia. rewrite pow2_add.
      apply Qmult_le_compat_r; [exact Hlow|].
      apply Qlt_le_weak, pow2_pos. }
  rewrite pow2_pred in Hhalf.
  assert (Hx' : (x == x * F64.pow2 (- f) * F64.pow2 f)%Q).
  { rewrite <- Qmult_assoc, pow2_opp_mul. ring. }
  pose proof (pow2_pos f) as Pf.
  set (t := (x * F64.pow2 (- f))%Q) in *.
  set (pf := F64.pow2 f) in *.
  assert (A1 : ((inject_Z m - (1 # 2)) * pf <= t * pf)%Q)
    by (apply Qmult_le_compat_r; lra).
  assert (A2 : (t * pf <= (inject_Z m + (1 # 2)) * pf)%Q)
    by (apply Qmult_le_compat_r; lra).
  split; lra.
Qed.

(** Three roundings in a row, against the cube of [1 + u] and of
    [1 - u]. *)
Lemma three_roundings (xs vPs vT x vA n1 : Q) :
  (0 <= xs)%Q -> (0 < n1)%Q ->
  (xs * (1 - Rounding.u) <= vPs)%Q -> (vPs <= xs * (1 + Rounding.u))%Q ->
  (vPs * (1 - Rounding.u) <= vT)%Q -> (vT <= vPs * (1 + Rounding.u))%Q ->
  (x * n1 == vT)%Q ->
  (x * (1 - Rounding.u) <= vA)%Q -> (vA <= x * (1 + Rounding.u))%Q ->
  (xs * (1 - 4 * Rounding.u) <= n1 * vA /\
   n1 * vA <= xs * (1 + 4 * Rounding.u))%Q.
Proof.
  intros X0 N0 P1 P2 T1 T2 Ex A1 A2.
  destruct u_bounds as [U0 _].
  assert (U8 : (Rounding.u <= 1 # 8)%Q).
  { unfold Rounding.u. change (1 # 8)%Q with (F64.pow2 (-3)).
    apply pow2_le. lia. }
  set (v := Rounding.u) in *. clearbody v.
  assert (UU : (v * v <= v * (1 # 8))%Q) by (apply Qmult_le_l'; lra).
  assert (XV : (0 <= xs * v)%Q) by (apply Qmult_le_0_compat; lra).
  assert (XVV : (xs * (v * v) <= xs * (v * (1 # 8)))%Q)
    by (apply Qmult_le_l'; lra).
  assert (XVV0 : (0 <= xs * (v * v))%Q).
  { apply Qmult_le_0_compat; [lra|]. apply Qmult_le_0_compat; lra. }
  assert (XV3 : (xs * (v * v) * v <= xs * (v * v) * 1)%Q)
    by (apply Qmult_le_l'; lra).
  assert (XV30 : (0 <= xs * (v * v) * v)%Q)
    by (apply Qmult_le_0_compat; lra).
  split.
  - assert (B1 : (xs * (1 - v) * (1 - v) <= vPs * (1 - v))%Q)
      by (apply Qmult_le_compat_r; lra).
    assert (B2 : (xs * (1 - v) * (1 - v) * (1 - v) <= vT * (1 - v))%Q)
      by (apply Qmult_le_compat_r; lra).
    assert (B3 : (n1 * (x * (1 - v)) <= n1 * vA)%Q)
      by (apply Qmult_le_l'; lra).
    assert (B4 : (n1 * (x * (1 - v)) == vT * (1 - v))%Q)
      by (rewrite <- Ex; ring).
    setoid_replace (xs * (1 - v) * (1 - v) * (1 - v))%Q
      with (xs - 3 * (xs * v) + 3 * (xs * (v * v)) - xs * (v * v) * v)%Q
      in B2 by ring.
    setoid_replace (xs * (1 - 4 * v))%Q with (xs - 4 * (xs * v))%Q by ring.
    setoid_replace (xs * (v * (1 # 8)))%Q with ((1 # 8) * (xs * v))%Q
      in XVV by ring.
    lra.
  - assert (B1 : (vPs * (1 + v) <= xs * (1 + v) * (1 + v))%Q)
      by (apply Qmult_le_compat_r; lra).
    assert (B2 : (vT * (1 + v) <= xs * (1 + v) * (1 + v) * (1 + v))%Q)
      by (apply Qmult_le_compat_r; lra).
    assert (B3 : (n1 * vA <= n1 * (x * (1 + v)))%Q)
      by (apply Qmult_le_l'; lra).
    assert (B4 : (n1 * (x * (1 + v)) == vT * (1 + v))%Q)
      by (rewrite <- Ex; ring).
    setoid_replace (xs * (1 + v) * (1 + v) * (1 + v))%Q
      with (xs + 3 * (xs * v) + 3 * (xs * (v * v)) + xs * (v * v) * v)%Q
      in B2 by ring.
    setoid_replace (xs * (1 + 4 * v))%Q with (xs + 4 * (xs * v))%Q by ring.
    setoid_replace (xs * (v * (1 # 8)))%Q with ((1 # 8) * (xs * v))%Q
      in XVV by ring.
    lra.
Qed.

(** X5.  Once a row has been rated its average is between 1 and 5, and
    it stays there: from a count of 0, or from an average of at least 1,
    a rating in 1..5 stores a well-formed average between 1 and 5 (for a
    count [n] with [5 * (n + 1) <= 2^53]). *)
Theorem X5_average_between_1_and_5 :
  forall a n s,
    rating_in_range a ->
    n = 0 \/ (1 <= F64.to_Q a)%Q ->
    0 <= n -> 5 * (n + 1) <= 2 ^ 53 ->
    1 <= s <= 5 ->
    rating_in_range (new_average a n s) /\
    (1 <= F64.to_Q (new_average a n s))%Q.
Proof.
  intros a n s Ra H1 Hn Hb Hs.
  destruct (in_range_nn a Ra) as [Na A5].
  pose proof (nn_nonneg a Na) as A0.
  destruct (new_average_chain a n s Na A5 Hn Hb Hs)
    as (vP & vT & vA & RP & RT & RA & NA & EA & BP & LT & BT & BA).
  assert (K0 : (0 <= inject_Z n)%Q) by (rewrite <- (Zle_Qle 0); lia).
  assert (S1 : (1 <= inject_Z s)%Q) by (apply inject_Z_ge_1; lia).
  assert (K' : (inject_Z (n + 1) == inject_Z n + 1)%Q)
    by (rewrite inject_Z_plus; reflexivity).
  assert (XP : (inject_Z n <= F64.to_Q a * inject_Z n)%Q).
  { destruct H1 as [->|H1].
    - change (inject_Z 0) with 0%Q. lra.
    - assert (1 * inject_Z n <= F64.to_Q a * inject_Z n)%Q
        by (apply Qmult_le_compat_r; lra). lra. }
  assert (LP : (inject_Z n <= vP)%Q).
  { apply (RN_lower _ _ _ RP); [apply Rep_int; lia|exact XP]. }
  assert (LT' : (inject_Z (n + 1) <= vT)%Q).
  { apply (RN_lower _ _ _ RT); [apply Rep_int; lia|]. lra. }
  assert (LA : (1 <= vA)%Q).
  { apply (RN_lower _ _ _ RA).
    - change 1%Q with (inject_Z 1). apply Rep_int. lia.
    - apply Qle_shift_div_l; lra. }
  split.
  - apply nn_in_range; [exact NA|now rewrite EA].
  - now rewrite EA.
Qed.

Lemma X5_average_between_1_and_5_witness :
  (1 <= F64.to_Q (new_average (F64.decimal 38 10) 10 1))%Q.
Proof.
  refine (proj2 (X5_average_between_1_and_5 (F64.decimal 38 10) 10 1
                   _ _ _ _ _)).
  - repeat split; vm_compute; intros H; discriminate H.
  - right. vm_compute. intros H; discriminate H.
  - lia.
  - simpl. lia.
  - lia.
Defined.

(** X6.  The stored average is the exact value of
    [(avg * count + stars) / (count + 1)], computed from the stored
    average, up to a relative error of [2^-51]: the three roundings of
    the expression cost at most four units in the last place. *)
Theorem X6_update_accuracy :
  forall a n s,
    rating_in_range a ->
    0 <= n -> 5 * (n + 1) <= 2 ^ 53 ->
    1 <= s <= 5 ->
    let exact :=
      ((F64.to_Q a * inject_Z n + inject_Z s) / inject_Z (n + 1))%Q in
    (Qabs (F64.to_Q (new_average a n s) - exact)
     <= exact * F64.pow2 (-51))%Q.
Proof.
  intros a n s Ra Hn Hb Hs exact.
  destruct (in_range_nn a Ra) as [Na A5].
  pose proof (nn_nonneg a Na) as A0.
  destruct (new_average_chain a n s Na A5 Hn Hb Hs)
    as (vP & vT & vA & RP & RT & RA & NA & EA & BP & LT & BT & BA).
  destruct u_bounds as [U0 U1].
  assert (K0 : (0 <= inject_Z n)%Q) by (rewrite <- (Zle_Qle 0); lia).
  assert (S1 : (1 <= inject_Z s)%Q) by (apply inject_Z_ge_1; lia).
  assert (N1 : (1 <= inject_Z (n + 1))%Q) by (apply inject_Z_ge_1; lia).
  pose proof (RN_nonneg _ _ RP) as P0.
  assert (XP : (0 <= F64.to_Q a * inject_Z n)%Q)
    by (apply Qmult_le_0_compat; assumption).
  (* the product, with the sum in view *)
  destruct (RN_mixed _ _ RP XP) as [MPl MPu].
  assert (Eta : (F64.pow2 (-1075) <= Rounding.u)%Q)
    by (apply pow2_le; lia).
  assert (SU : (Rounding.u * 1 <= Rounding.u * inject_Z s)%Q)
    by (apply Qmult_le_l'; lra).
  set (xP := (F64.to_Q a * inject_Z n)%Q) in *.
  set (S := inject_Z s) in *.
  assert (P1 : ((xP + S) * (1 - Rounding.u) <= vP + S)%Q).
  { setoid_replace ((xP + S) * (1 - Rounding.u))%Q
      with (xP * (1 - Rounding.u) + S - Rounding.u * S)%Q by ring. lra. }
  assert (P2 : (vP + S <= (xP + S) * (1 + Rounding.u))%Q).
  { setoid_replace ((xP + S) * (1 + Rounding.u))%Q
      with (xP * (1 + Rounding.u) + S + Rounding.u * S)%Q by ring. lra. }
  (* the sum and the quotient are in the normal range *)
  pose proof pow2_m1022_le_1 as T.
  destruct (RN_relative _ _ RT ltac:(lra)) as [RTl RTu].
  assert (XA : (F64.pow2 (-1022) <= vT / inject_Z (n + 1))%Q).
  { apply Qle_shift_div_l; [lra|].
    apply Qle_trans with (F64.pow2 (-1022) * F64.pow2 53)%Q.
    - apply Qmult_le_l'; [pose proof (pow2_pos (-1022)); lra|].
      rewrite (pow2_inject 53) by lia. rewrite <- Zle_Qle. lia.
    - rewrite <- pow2_add.
      apply Qle_trans with 1%Q; [|lra].
      change 1%Q with (F64.pow2 0). apply pow2_le. lia. }
  destruct (RN_relative _ _ RA XA) as [RAl RAu].
  fold Rounding.u in RTl, RTu, RAl, RAu.
  assert (EX : (vT / inject_Z (n + 1) * inject_Z (n + 1) == vT)%Q)
    by (field; lra).
  destruct (three_roundings (xP + S) (vP + S) vT
              (vT / inject_Z (n + 1)) vA (inject_Z (n + 1))
              ltac:(lra) ltac:(lra) P1 P2 RTl RTu EX RAl RAu)
    as [Lo Hi].
  (* from the products to the quotient *)
  assert (E51 : (F64.pow2 (-51) == 4 * Rounding.u)%Q).
  { unfold Rounding.u. replace (-51) with (2 + -53) by lia.
    rewrite pow2_add. reflexivity. }
  assert (Ee : (exact * inject_Z (n + 1) == xP + S)%Q)
    by (unfold exact; fold xP; fold S; field; lra).
  assert (E0 : (0 <= exact)%Q).
  { unfold exact. fold xP. fold S. apply Qle_shift_div_l; lra. }
  rewrite EA, E51.
  set (k := inject_Z (n + 1)) in *.
  clearbody exact k xP S.
  set (d := (exact * (4 * Rounding.u))%Q).
  assert (D : (d * k == (xP + S) * (4 * Rounding.u))%Q)
    by (unfold d; rewrite <- Ee; ring).
  apply Qabs_case; intros _.
  - apply Qmult_le_r with k; [lra|].
    setoid_replace ((vA - exact) * k)%Q with (k * vA - (xP + S))%Q
      by (rewrite <- Ee; ring).
    rewrite D.
    setoid_replace ((xP + S) * (4 * Rounding.u))%Q
      with ((xP + S) * (1 + 4 * Rounding.u) - (xP + S))%Q by ring.
    lra.
  - apply Qmult_le_r with k; [lra|].
    setoid_replace (- (vA - exact) * k)%Q with ((xP + S) - k * vA)%Q
      by (rewrite <- Ee; ring).
    rewrite D.
    setoid_replace ((xP + S) * (4 * Rounding.u))%Q
      with ((xP + S) - (xP + S) * (1 - 4 * Rounding.u))%Q by ring.
    lra.
Qed.

Lemma X6_update_accuracy_witness :
  (Qabs (F64.to_Q (new_average (F64.decimal 35 10) 12 5)
         - (F64.to_Q (F64.decimal 35 10) * inject_Z 12 + inject_Z 5)
           / inject_Z (12 + 1))
   <= (F64.to_Q (F64.decimal 35 10) * inject_Z 12 + inject_Z 5)
      / inject_Z (12 + 1) * F64.pow2 (-51))%Q.
Proof.
  apply (X6_update_accuracy (F64.decimal 35 10) 12 5).
  - repeat split; vm_compute; intros H; discriminate H.
  - lia.
  - simpl. lia.
  - lia.
Defined.

(** X7.  Rating a toilet with the number of stars its average already
    is leaves the average at exactly that number: no drift builds up
    when everyone agrees. *)
Theorem X7_agreeing_rating_keeps_average :
  forall a n s,
    rating_in_range a ->
    (F64.to_Q a == inject_Z s)%Q ->
    0 <= n -> 5 * (n + 1) <= 2 ^ 53 ->
    1 <= s <= 5 ->
    (F64.to_Q (new_average a n s) == inject_Z s)%Q.
Proof.
  intros a n s Ra Ea Hn Hb Hs.
  destruct (in_range_nn a Ra) as [Na A5].
  destruct (new_average_chain a n s Na A5 Hn Hb Hs)
    as (vP & vT & vA & RP & RT & RA & NA & EA & _).
  assert (EP : (vP == inject_Z (s * n))%Q).
  { apply RN_exact; [|apply Rep_int; nia].
    revert RP. apply RN_ext. rewrite Ea, inject_Z_mult. reflexivity. }
  assert (ET : (vT == inject_Z (s * (n + 1)))%Q).
  { apply RN_exact; [|apply Rep_int; nia].
    revert RT. apply RN_ext. rewrite EP, <- inject_Z_plus.
    replace (s * n + s) with (s * (n + 1)) by ring. reflexivity. }
  assert (N1 : (0 < inject_Z (n + 1))%Q) by (rewrite <- (Zlt_Qlt 0); lia).
  rewrite EA. apply RN_exact; [|apply Rep_int; lia].
  revert RA. apply RN_ext. rewrite ET, inject_Z_mult. field. lra.
Qed.

Lemma X7_agreeing_rating_keeps_average_witness :
  (F64.to_Q (new_average (F64.of_int 4) 8 4) == inject_Z 4)%Q.
Proof.
  apply (X7_agreeing_rating_keeps_average (F64.of_int 4) 8 4).
  - repeat split; vm_compute; intros H; discriminate H.
  - vm_compute. reflexivity.
  - lia.
  - simpl. lia.
  - lia.
Defined.

(** ** Runs of the script *)

Lemma script_warm {csv : Type} (to_csv : DataFrame -> csv) read_csv today ev
      (sv : server csv) t :
  cache sv = Some t ->
  script to_csv read_csv today ev sv
  = let s0 := mkState t (on_disk sv) [] in
    match ev with
    | View => (mkServer (Some t) (on_disk sv), Ok s0)
    | SubmitRating picked rating =>
        match selectbox (unique (map name t)) picked with
        | None => (mkServer (Some t) (on_disk sv), Raise IndexError)
        | Some key =>
            match submit_rating to_csv today key rating s0 with
            | Ok s1 => (mkServer (Some t) (file s1), Ok s1)
            | Raise e => (mkServer (Some t) (on_disk sv), Raise e)
            end
        end
    | AddToilet new_name new_address lat lon =>
        let s1 := add_toilet to_csv today new_name new_address lat lon s0 in
        (mkServer (Some t) (file s1), Ok s1)
    end.
Proof.
  intros H. unfold script, cached_load_toilet_data. rewrite H. reflexivity.
Qed.

Lemma script_cold {csv : Type} (to_csv : DataFrame -> csv) read_csv today ev
      (sv : server csv) :
  cache sv = None ->
  exists t,
    load_toilet_data read_csv (on_disk sv) today = Ok t /\
    script to_csv read_csv today ev sv
    = script to_csv read_csv today ev (mkServer (Some t) (on_disk sv)).
Proof.
  intros H. unfold script, cached_load_toilet_data. rewrite H. simpl.
  unfold load_toilet_data.
  destruct (read_file read_csv (on_disk sv)) as [t|e]; eexists;
    (split; [reflexivity|reflexivity]).
Qed.

Lemma script_keeps_cache {csv : Type} (to_csv : DataFrame -> csv) read_csv
      today ev (sv : server csv) t :
  cache sv = Some t ->
  cache (fst (script to_csv read_csv today ev sv)) = Some t.
Proof.
  intros H. rewrite (script_warm _ _ _ _ _ _ H). cbv zeta.
  destruct ev as [|picked rating|nm addr lat lon]; simpl; [reflexivity| |].
  - destruct (selectbox _ picked) as [key|]; [|reflexivity].
    destruct (submit_rating _ _ _ _ _); reflexivity.
  - reflexivity.
Qed.

Lemma session_keeps_cache {csv : Type} (to_csv : DataFrame -> csv) read_csv
      runs : forall (sv : server csv) t,
  cache sv = Some t ->
  cache (session to_csv read_csv runs sv) = Some t.
Proof.
  induction runs as [|[today ev] rest IH]; intros sv t H; simpl.
  - exact H.
  - apply IH. now apply script_keeps_cache.
Qed.

(** X10.  The file is written by a successful change only: a run that
    presses no button, an addition that is rejected and a run that ends
    in an exception leave the file as it was, and after a successful
    submission the file holds the table the run shows. *)
Theorem X10_file_written_only_by_a_change :
  forall (csv : Type) (to_csv : DataFrame -> csv) read_csv today
         (sv : server csv),
    on_disk (fst (script to_csv read_csv today View sv)) = on_disk sv /\
    (forall new_name new_address lat lon,
        new_name = "" \/ new_address = "" ->
        on_disk (fst (script to_csv read_csv today
                        (AddToilet new_name new_address lat lon) sv))
        = on_disk sv) /\
    (forall ev e,
        snd (script to_csv read_csv today ev sv) = Raise e ->
        on_disk (fst (script to_csv read_csv today ev sv)) = on_disk sv) /\
    (forall picked rating s1,
        snd (script to_csv read_csv today (SubmitRating picked rating) sv)
        = Ok s1 ->
        on_disk (fst (script to_csv read_csv today
                        (SubmitRating picked rating) sv))
        = Some (to_csv (df s1))).
Proof.
  intros csv to_csv read_csv today sv.
  assert (W : forall t (sv : server csv), cache sv = Some t ->
    on_disk (fst (script to_csv read_csv today View sv)) = on_disk sv /\
    (forall new_name new_address lat lon,
        new_name = "" \/ new_address = "" ->
        on_disk (fst (script to_csv read_csv today
                        (AddToilet new_name new_address lat lon) sv))
        = on_disk sv) /\
    (forall ev e,
        snd (script to_csv read_csv today ev sv) = Raise e ->
        on_disk (fst (script to_csv read_csv today ev sv)) = on_disk sv) /\
    (forall picked rating s1,
        snd (script to_csv read_csv today (SubmitRating picked rating) sv)
        = Ok s1 ->
        on_disk (fst (script to_csv read_csv today
                        (SubmitRating picked rating) sv))
        = Some (to_csv (df s1)))).
  { clear sv. intros t sv H. split; [|split; [|split]].
    - now rewrite (script_warm _ _ _ _ _ _ H).
    - intros nm addr lat lon E.
      rewrite (script_warm _ _ _ _ _ _ H). cbv zeta. simpl.
      unfold add_toilet.
      replace (truthy nm && truthy addr) with false; [reflexivity|].
      destruct E as [-> | ->]; unfold truthy; simpl;
        [reflexivity|now rewrite andb_false_r].
    - intros ev e. rewrite (script_warm _ _ _ _ _ _ H). cbv zeta.
      destruct ev as [|picked rating|nm addr lat lon]; simpl.
      + intros E; discriminate E.
      + destruct (selectbox _ picked) as [key|]; [|reflexivity].
        destruct (submit_rating _ _ _ _ _); simpl;
          [intros E; discriminate E|reflexivity].
      + intros E; discriminate E.
    - intros picked rating s1. rewrite (script_warm _ _ _ _ _ _ H).
      cbv zeta.
      destruct (selectbox _ picked) as [key|]; simpl;
        [|intros E; discriminate E].
      rewrite submit_rating_unfold. simpl df.
      destruct (first_named key t); cbv zeta; simpl;
        [|intros E; discriminate E].
      intros E. injection E as <-. reflexivity. }
  destruct (cache sv) as [t|] eqn:C; [exact (W t sv C)|].
  assert (S : forall ev,
             script to_csv read_csv today ev sv
             = script to_csv read_csv today ev
                 (mkServer (cache
                    (fst (script to_csv read_csv today View sv)))
                    (on_disk sv))).
  { intros ev. destruct (script_cold to_csv read_csv today ev sv C)
      as (t & L & E).
    destruct (script_cold to_csv read_csv today View sv C)
      as (t' & L' & E').
    rewrite L in L'. injection L' as <-.
    rewrite E, E'. reflexivity. }
  destruct (script_cold to_csv read_csv today View sv C) as (t & L & E).
  assert (K : cache (fst (script to_csv read_csv today View sv)) = Some t).
  { rewrite E. now apply script_keeps_cache. }
  rewrite K in S.
  destruct (W t (mkServer (Some t) (on_disk sv)) eq_refl)
    as (W1 & W2 & W3 & W4).
  simpl on_disk in *.
  split; [rewrite S; exact W1|].
  split; [intros; rewrite S; now apply W2|].
  split; [intros ev e; rewrite (S ev); apply W3|].
  intros picked rating s1. rewrite S. apply W4.
Qed.

Lemma X10_file_written_only_by_a_change_witness :
  on_disk (fst (script (fun d : DataFrame => d)
                  (fun d : DataFrame => Ok d) "2025-06-09"
                  (AddToilet "" "1 Test St" (F64.decimal (-3781) 100)
                     (F64.decimal 14496 100))
                  (mkServer None None)))
  = None.
Proof.
  apply (proj1 (proj2 (X10_file_written_only_by_a_change DataFrame
                         (fun d => d) (fun d => Ok d) "2025-06-09"
                         (mkServer None None)))).
  left. reflexivity.
Defined.



(** X12.  On a table without rows the select box has nothing to offer,
    and pressing "Submit Rating" ends the run with [IndexError]; the file
    stays as it was.  This is what a file with a header and no rows
    leads to. *)
Theorem X12_rating_on_an_empty_table_raises :
  forall (csv : Type) (to_csv : DataFrame -> csv) read_csv today picked
         rating (sv : server csv),
    cache sv = Some [] \/
    (cache sv = None /\ read_file read_csv (on_disk sv) = Ok []) ->
    script to_csv read_csv today (SubmitRating picked rating) sv
    = (mkServer (Some []) (on_disk sv), Raise IndexError).
Proof.
  intros csv to_csv read_csv today picked rating sv [H|[H R]].
  - rewrite (script_warm _ _ _ _ _ _ H). cbv zeta. simpl.
    unfold selectbox. now destruct picked.
  - unfold script, cached_load_toilet_data, load_toilet_data.
    rewrite H, R. simpl. unfold selectbox. now destruct picked.
Qed.

Lemma X12_rating_on_an_empty_table_raises_witness :
  script (fun d : DataFrame => d) (fun d : DataFrame => Ok d) "2025-06-09"
         (SubmitRating 0 3) (mkServer None (Some []))
  = (mkServer (Some []) (Some []), Raise IndexError).
Proof.
  apply (X12_rating_on_an_empty_table_raises DataFrame (fun d => d)
           (fun d => Ok d) "2025-06-09" 0%nat 3
           (mkServer None (Some []))).
  right. split; reflexivity.
Defined.

(** X13.  With an empty cache the first run loads the table, and that
    table is the one every later run starts from; when the file is
    missing or unreadable at that moment it is the sample data of that
    day, also after later runs have written the file. *)
Theorem X13_first_load_decides_the_table :
  forall (csv : Type) (to_csv : DataFrame -> csv) read_csv today ev runs
         (sv : server csv),
    cache sv = None ->
    exists t,
      load_toilet_data read_csv (on_disk sv) today = Ok t /\
      cache (session to_csv read_csv ((today, ev) :: runs) sv) = Some t /\
      (forall e, read_file read_csv (on_disk sv) = Raise e ->
                 t = sample_data today).
Proof.
  intros csv to_csv read_csv today ev runs sv H.
  destruct (script_cold to_csv read_csv today ev sv H) as (t & L & E).
  exists t. split; [exact L|]. split.
  - simpl session. apply session_keeps_cache. rewrite E.
    now apply script_keeps_cache.
  - intros e R. unfold load_toilet_data in L. rewrite R in L.
    now injection L as <-.
Qed.

Lemma X13_first_load_decides_the_table_witness :
  exists t,
    load_toilet_data (fun d : DataFrame => Ok d) None "2025-06-09" = Ok t /\
    cache (session (fun d : DataFrame => d) (fun d : DataFrame => Ok d)
             [("2025-06-09", SubmitRating 1 2);
              ("2025-06-10", SubmitRating 1 5)]
             (mkServer None None)) = Some t.
Proof.
  destruct (X13_first_load_decides_the_table DataFrame (fun d => d)
              (fun d => Ok d) "2025-06-09" (SubmitRating 1 2)
              [("2025-06-10", SubmitRating 1 5)] (mkServer None None)
              eq_refl) as (t & L & C & _).
  exists t. split; assumption.
Defined.

(** ** An addition, and the runs after it *)

(** X3.  While the server runs, the select box offers the names of the
    cached table in every run, whatever earlier runs rated or added.  An
    accepted addition under a new name is written to the file, yet the
    run after it does not offer that name: the added toilet cannot be
    rated before a restart. *)
Theorem X3_options_fixed_while_the_server_runs :
  forall (csv : Type) (to_csv : DataFrame -> csv) read_csv
         (sv : server csv) t runs today,
    cache sv = Some t ->
    let sv' := session to_csv read_csv runs sv in
    offered read_csv today sv' = Ok (unique (map name t)) /\
    (forall added new_name new_address lat lon,
        new_name <> "" -> new_address <> "" ->
        ~ In new_name (map name t) ->
        let sv1 := fst (script to_csv read_csv added
                          (AddToilet new_name new_address lat lon) sv') in
        on_disk sv1
        = Some (to_csv (t ++ [mkToilet new_name new_address lat lon
                                F64.zero 0 added])) /\
        exists options,
          offered read_csv today sv1 = Ok options /\
          ~ In new_name options /\
          (forall picked,
              selectbox options picked <> Some new_name)).
Proof.
  intros csv to_csv read_csv sv t runs today H sv'.
  assert (C : cache sv' = Some t) by (now apply session_keeps_cache).
  split.
  - unfold offered, cached_load_toilet_data. now rewrite C.
  - intros added nm addr lat lon Hn Ha Hnew sv1.
    assert (E : sv1 = mkServer (Some t)
                        (Some (to_csv (t ++ [mkToilet nm addr lat lon
                                               F64.zero 0 added])))).
    { unfold sv1. rewrite (script_warm _ _ _ _ _ _ C). cbv zeta.
      now rewrite add_toilet_accepted. }
    rewrite E. split; [reflexivity|].
    exists (unique (map name t)). split; [reflexivity|].
    assert (N : ~ In nm (unique (map name t))) by (now rewrite In_unique).
    split; [exact N|].
    intros picked P. apply N. unfold selectbox in P.
    now apply nth_error_In in P.
Qed.

Lemma X3_options_fixed_while_the_server_runs_witness :
  offered (fun d : DataFrame => Ok d) "2025-06-11"
    (session (fun d : DataFrame => d) (fun d : DataFrame => Ok d)
       [("2025-06-10", AddToilet "Test Toilet" "1 Test St"
                         (F64.decimal (-3781) 100)
                         (F64.decimal 14496 100))]
       (mkServer (Some (sample_data "2025-06-01")) None))
  = Ok (unique (map name (sample_data "2025-06-01"))).
Proof.
  apply (proj1 (X3_options_fixed_while_the_server_runs DataFrame
                  (fun d => d) (fun d => Ok d)
                  (mkServer (Some (sample_data "2025-06-01")) None)
                  (sample_data "2025-06-01")
                  [("2025-06-10", AddToilet "Test Toilet" "1 Test St"
                                    (F64.decimal (-3781) 100)
                                    (F64.decimal 14496 100))]
                  "2025-06-11" eq_refl)).
Defined.

(** X9.  In a running server an accepted addition is lost at the next
    successful submission: that run starts from the cached table and
    rewrites the file from it, so the file then holds the rows of the
    cached table, under the same names, and not the added row. *)
Theorem X9_addition_lost_at_the_next_submission :
  forall (csv : Type) (to_csv : DataFrame -> csv) read_csv
         (sv : server csv) t added today new_name new_address lat lon
         picked rating key,
    cache sv = Some t ->
    new_name <> "" -> new_address <> "" ->
    selectbox (unique (map name t)) picked = Some key ->
    let sv1 := fst (script to_csv read_csv added
                      (AddToilet new_name new_address lat lon) sv) in
    let sv2 := fst (script to_csv read_csv today
                      (SubmitRating picked rating) sv1) in
    on_disk sv1
    = Some (to_csv (t ++ [mkToilet new_name new_address lat lon
                            F64.zero 0 added])) /\
    exists r0,
      first_named key t = Some r0 /\
      let new_avg := new_average (avg_rating r0) (num_ratings r0) rating in
      let new_count := Int64.add (num_ratings r0) 1 in
      let t' := map (rated today key new_avg new_count) t in
      on_disk sv2 = Some (to_csv t') /\
      List.length t' = List.length t /\
      map name t' = map name t.
Proof.
  intros csv to_csv read_csv sv t added today nm addr lat lon picked
         rating key H Hn Ha P sv1 sv2.
  assert (E : sv1 = mkServer (Some t)
                      (Some (to_csv (t ++ [mkToilet nm addr lat lon
                                             F64.zero 0 added])))).
  { unfold sv1. rewrite (script_warm _ _ _ _ _ _ H). cbv zeta.
    now rewrite add_toilet_accepted. }
  split; [now rewrite E|].
  assert (I : In key (unique (map name t)))
    by (now apply nth_error_In in P).
  apply In_unique, in_map_iff in I. destruct I as (r & Er & Hr).
  destruct (proj2 (first_named_some key t)) as [r0 F]; [eauto|].
  exists r0. split; [exact F|]. cbv zeta.
  split; [|split; [apply List.length_map|apply map_name_rated]].
  unfold sv2. rewrite E.
  rewrite (script_warm _ _ _ _ (mkServer (Some t) _) t eq_refl).
  cbv zeta. rewrite P.
  rewrite submit_rating_unfold. simpl df. rewrite F. reflexivity.
Qed.

Lemma X9_addition_lost_at_the_next_submission_witness :
  on_disk (fst (script (fun d : DataFrame => d) (fun d : DataFrame => Ok d)
                  "2025-06-10"
                  (AddToilet "Test Toilet" "1 Test St"
                     (F64.decimal (-3781) 100) (F64.decimal 14496 100))
                  (mkServer (Some (sample_data "2025-06-01")) None)))
  = Some (sample_data "2025-06-01"
          ++ [mkToilet "Test Toilet" "1 Test St" (F64.decimal (-3781) 100)
                (F64.decimal 14496 100) F64.zero 0 "2025-06-10"]).
Proof.
  refine (proj1 (X9_addition_lost_at_the_next_submission DataFrame
                   (fun d => d) (fun d => Ok d)
                   (mkServer (Some (sample_data "2025-06-01")) None)
                   (sample_data "2025-06-01") "2025-06-10" "2025-06-11"
                   "Test Toilet" "1 Test St" (F64.decimal (-3781) 100)
                   (F64.decimal 14496 100) 2%nat 4
                   "Federation Square Toilets" eq_refl _ _ eq_refl)).
  - intros H; discriminate H.
  - intros H; discriminate H.
Defined.

(** X8.  After a restart the added toilet can be rated, provided the
    file reads back as the table that was written: a toilet added under
    a new name is then the last option, and its first rating with
    [stars] in 1..5 shows and writes the table with that row at the
    average exactly [stars] and the count 1. *)
Theorem X8_added_toilet_rated_after_a_restart :
  forall (csv : Type) (to_csv : DataFrame -> csv) read_csv
         (sv : server csv) t added today new_name new_address lat lon
         stars,
    cache sv = Some t ->
    new_name <> "" -> new_address <> "" ->
    (forall r, In r t -> name r <> new_name) ->
    1 <= stars <= 5 ->
    let row := mkToilet new_name new_address lat lon F64.zero 0 added in
    read_csv (to_csv (t ++ [row])) = Ok (t ++ [row]) ->
    let sv1 := restart (fst (script to_csv read_csv added
                               (AddToilet new_name new_address lat lon)
                               sv)) in
    let picked := List.length (unique (map name t)) in
    let t' := t ++ [mkToilet new_name new_address lat lon
                      (F64.of_int stars) 1 today] in
    offered read_csv today sv1 = Ok (unique (map name t) ++ [new_name]) /\
    script to_csv read_csv today (SubmitRating picked stars) sv1
    = (mkServer (Some (t ++ [row])) (Some (to_csv t')),
       Ok (mkState t' (Some (to_csv t'))
             [RatingThanks (F64.of_int stars) 1])).
Proof.
  intros csv to_csv read_csv sv t added today nm addr lat lon stars
         H Hn Ha Hnew Hs row R sv1 picked t'.
  assert (E : sv1 = mkServer None (Some (to_csv (t ++ [row])))).
  { unfold sv1, restart. rewrite (script_warm _ _ _ _ _ _ H). cbv zeta.
    now rewrite add_toilet_accepted. }
  assert (N : ~ In nm (map name t)).
  { rewrite in_map_iff. intros (r & Er & Hr). now elim (Hnew r Hr). }
  assert (O : unique (map name (t ++ [row])) = unique (map name t) ++ [nm]).
  { rewrite map_app. simpl. now apply unique_snoc_new. }
  rewrite E. split.
  - unfold offered, cached_load_toilet_data, load_toilet_data. simpl.
    now rewrite R, O.
  - unfold script, cached_load_toilet_data, load_toilet_data. simpl.
    rewrite R, O. unfold selectbox, picked.
    rewrite nth_error_app2, Nat.sub_diag by apply Nat.le_refl. simpl.
    rewrite submit_rating_unfold. simpl df.
    rewrite (first_named_snoc_new nm t row Hnew eq_refl). cbv zeta.
    simpl avg_rating. simpl num_ratings.
    rewrite new_average_first by (auto; reflexivity).
    rewrite map_app, rated_absent by exact Hnew. simpl map.
    unfold rated. simpl name. rewrite String.eqb_refl. reflexivity.
Qed.

Lemma X8_added_toilet_rated_after_a_restart_witness :
  script (fun d : DataFrame => d) (fun d : DataFrame => Ok d) "2025-06-11"
    (SubmitRating 5 4)
    (restart (fst (script (fun d : DataFrame => d)
                     (fun d : DataFrame => Ok d) "2025-06-10"
                     (AddToilet "Test Toilet" "1 Test St"
                        (F64.decimal (-3781) 100) (F64.decimal 14496 100))
                     (mkServer (Some (sample_data "2025-06-01")) None))))
  = (let row d a c :=
       mkToilet "Test Toilet" "1 Test St" (F64.decimal (-3781) 100)
         (F64.decimal 14496 100) a c d in
     let t' := sample_data "2025-06-01"
               ++ [row "2025-06-11" (F64.of_int 4) 1] in
     (mkServer (Some (sample_data "2025-06-01"
                      ++ [row "2025-06-10" F64.zero 0]))
        (Some t'),
      Ok (mkState t' (Some t') [RatingThanks (F64.of_int 4) 1]))).
Proof.
  refine (proj2 (X8_added_toilet_rated_after_a_restart DataFrame
                   (fun d => d) (fun d => Ok d)
                   (mkServer (Some (sample_data "2025-06-01")) None)
                   (sample_data "2025-06-01") "2025-06-10" "2025-06-11"
                   "Test Toilet" "1 Test St" (F64.decimal (-3781) 100)
                   (F64.decimal 14496 100) 4 eq_refl _ _ _ _ eq_refl)).
  - intros H; discriminate H.
  - intros H; discriminate H.
  - simpl. intros r [<-|[<-|[<-|[<-|[<-|[]]]]]] H; discriminate H.
  - lia.
Defined.
